(** * autoMEW: wallet generation and POL distribution

    A shallow embedding of the two scripts of the repository,
    [create_wallet.py] and [distribute_pol.py], and the properties of the
    specification that concern them.

    Conventions of the embedding.
    - Python [int] is [Z]; loop indices and counts that are never negative
      are [nat].
    - Python [str] is [string]; a character is a code point below 256.
    - An exception is a value of [exn]; code that may raise returns
      [result A].  A [try]/[except Exception] block is [try_except].
    - Code that reads the clock, the entropy source, the file system or the
      network is a function from a state to a state and a [result].
    - [print] and [log_file.write] raise on a text the stream cannot
      encode; which recipients a stream can encode is a field of
      [Streams].
    - The libraries the scripts call ([web3], [eth_account], [mnemonic],
      [fpdf], [json]) are collaborators: their operations are the fields of
      an interface record, and every theorem holds for every implementation
      of it. *)

From Stdlib Require Import ZArith Ascii String Strings.Byte List Lia Bool.
From Stdlib Require Import DecimalString DecimalZ.
From stdpp Require Import base gmap strings list.

Local Open Scope string_scope.
Local Open Scope list_scope.

(* Let [simpl] compute the append of strings. *)
#[local] Arguments String.append !s1 s2 : simpl nomatch.

(** ** Exceptions *)

(** The exceptions the scripts raise themselves, named after the error
    kinds of the specification, and [External] for whatever a collaborator
    raises. All of them are subclasses of [Exception]. *)
Inductive exn : Type :=
| MissingCredentialFile
    (* ValueError("privatekey.txt file not found. ...") *)
| InvalidPrivateKeyFormat (len : nat)
    (* ValueError("Invalid private key length: {len} chars (expected 66)") *)
| NoRecipientFile
    (* ValueError("No all_wallets_*.json files found") *)
| InsufficientBalance (needed have : Z)
    (* ValueError("Insufficient balance. Need ... but have ...") *)
| External (msg : string).

Inductive result (A : Type) : Type :=
| Ok (a : A)
| Raise (e : exn).
Arguments Ok {A} a.
Arguments Raise {A} e.

Definition is_ok {A} (r : result A) : bool :=
  match r with Ok _ => true | Raise _ => false end.

(** ** Python string primitives *)

Module Py.

(** [str.isspace] on code points below 256: TAB..CR, FS..US, SPACE, NEL
    and NBSP. *)
Definition is_whitespace (c : ascii) : bool :=
  let n := N_of_ascii c in
  ((9 <=? n) && (n <=? 13) || (28 <=? n) && (n <=? 32)
   || (n =? 133) || (n =? 160))%N.

Fixpoint lstrip (s : string) : string :=
  match s with
  | EmptyString => EmptyString
  | String c s' => if is_whitespace c then lstrip s' else s
  end.

Fixpoint rev (s : string) : string :=
  match s with
  | EmptyString => EmptyString
  | String c s' => rev s' +:+ String c EmptyString
  end.

Definition rstrip (s : string) : string := rev (lstrip (rev s)).

(** [s.strip()] *)
Definition strip (s : string) : string := rstrip (lstrip s).

Definition is_empty (s : string) : bool :=
  match s with EmptyString => true | _ => false end.

(** [s.split()] with no separator: the maximal runs of characters that are
    not whitespace. [w] is the run being read. *)
Fixpoint split_from (w s : string) : list string :=
  match s with
  | EmptyString => if is_empty w then [] else [w]
  | String c s' =>
      if is_whitespace c
      then (if is_empty w then split_from EmptyString s'
            else w :: split_from EmptyString s')
      else split_from (w +:+ String c EmptyString) s'
  end.

Definition split (s : string) : list string := split_from EmptyString s.

(** [''.join(l)] *)
Definition join (l : list string) : string :=
  fold_right append EmptyString l.

(** [s.startswith(p)] *)
Definition startswith (s p : string) : bool := String.prefix p s.

(** [len(s)] *)
Definition len (s : string) : nat := String.length s.

(** The characters of [s] that are not whitespace, in order. *)
Fixpoint without_whitespace (s : string) : string :=
  match s with
  | EmptyString => EmptyString
  | String c s' =>
      if is_whitespace c then without_whitespace s'
      else String c (without_whitespace s')
  end.

Fixpoint all_chars (p : ascii -> bool) (s : string) : bool :=
  match s with
  | EmptyString => true
  | String c s' => p c && all_chars p s'
  end.

Definition is_hex_digit (c : ascii) : bool :=
  let n := N_of_ascii c in
  ((48 <=? n) && (n <=? 57) || (65 <=? n) && (n <=? 70)
   || (97 <=? n) && (n <=? 102))%N.

End Py.

(** ** distribute_pol.py: the credential file *)

Module Credential.

(** The text after the two [private_key = ...] assignments and the
    conditional prefixing of [load_private_key]. *)
Definition normalize (contents : string) : string :=
  let private_key := Py.strip contents in
  let private_key := Py.join (Py.split private_key) in
  if negb (Py.startswith private_key "0x")
  then "0x" +:+ private_key
  else private_key.

(** [load_private_key]. The argument is what [open(PRIVATE_KEY_FILE, 'r')]
    finds: [None] when the file does not exist ([FileNotFoundError]), the
    text of the file otherwise. *)
Definition load_private_key (file : option string) : result string :=
  match file with
  | None => Raise MissingCredentialFile
  | Some contents =>
      let private_key := normalize contents in
      if negb (Py.len private_key =? 66)%nat
      then Raise (InvalidPrivateKeyFormat (Py.len private_key))
      else Ok private_key
  end.

(** What the specification asks of a credential: the secret, without its
    optional prefix, is 64 hexadecimal digits. *)
Definition is_hex_secret (private_key : string) : bool :=
  match private_key with
  | String "0" (String "x" secret) =>
      (String.length secret =? 64)%nat && Py.all_chars Py.is_hex_digit secret
  | _ => false
  end.

End Credential.

(** ** Programs with state and exceptions *)

(** A statement that runs in state [S] and either returns an [A] or raises.
    The state a statement has reached when it raises is kept: Python does
    not roll back side effects. *)
Definition prog (S A : Type) : Type := S -> S * result A.

Definition ret {S A} (a : A) : prog S A := fun s => (s, Ok a).

Definition raise {S A} (e : exn) : prog S A := fun s => (s, Raise e).

Definition bind {S A B} (m : prog S A) (k : A -> prog S B) : prog S B :=
  fun s =>
    match m s with
    | (s', Ok a) => k a s'
    | (s', Raise e) => (s', Raise e)
    end.

(** A pure computation that may raise. *)
Definition lift {S A} (r : result A) : prog S A := fun s => (s, r).

(** [try: body  except Exception as e: handler(e)] *)
Definition try_except {S A} (body : prog S A) (handler : exn -> prog S A)
  : prog S A :=
  fun s =>
    match body s with
    | (s', Ok a) => (s', Ok a)
    | (s', Raise e) => handler e s'
    end.

Definition modify {S} (f : S -> S) : prog S unit := fun s => (f s, Ok tt).

Definition gets {S A} (f : S -> A) : prog S A := fun s => (s, Ok (f s)).

Declare Scope prog_scope.
Delimit Scope prog_scope with prog.
Notation "x <- m ;; k" := (bind m (fun x => k))
  (at level 100, m at next level, right associativity) : prog_scope.
Notation "m ;;; k" := (bind m (fun _ => k))
  (at level 100, right associativity) : prog_scope.

(** ** JSON documents *)

(** What [json.load] returns and [json.dump] accepts. A [JObj] is a Python
    [dict]: its keys are kept in insertion order and are pairwise distinct.
    The numbers of the documents the scripts write are integers. *)
#[warnings="-register-all"]
Inductive json : Type :=
| JNull
| JBool (b : bool)
| JInt (n : Z)
| JStr (s : string)
| JArr (items : list json)
| JObj (fields : list (string * json)).

Module Json.

(** [d[key]] on a dict. *)
Fixpoint dict_get (key : string) (fields : list (string * json))
  : option json :=
  match fields with
  | [] => None
  | (k, v) :: rest => if String.eqb k key then Some v else dict_get key rest
  end.

(** [value[key]] for a string key: defined on dicts that have the key. *)
Definition subscript (value : json) (key : string) : result json :=
  match value with
  | JObj fields =>
      match dict_get key fields with
      | Some v => Ok v
      | None => Raise (External ("KeyError: " +:+ key))
      end
  | _ => Raise (External "TypeError")
  end.

Fixpoint chars (s : string) : list json :=
  match s with
  | EmptyString => []
  | String c s' => JStr (String c EmptyString) :: chars s'
  end.

(** [for x in value]: the items of a list, the keys of a dict, the
    characters of a string. *)
Definition iterate (value : json) : result (list json) :=
  match value with
  | JArr items => Ok items
  | JObj fields => Ok (map (fun kv => JStr (fst kv)) fields)
  | JStr s => Ok (chars s)
  | _ => Raise (External "TypeError")
  end.

(** [[f(x) for x in l]] where [f] may raise: stops at the first exception. *)
Fixpoint comprehension {A B} (f : A -> result B) (l : list A)
  : result (list B) :=
  match l with
  | [] => Ok []
  | x :: l' =>
      match f x with
      | Raise e => Raise e
      | Ok y =>
          match comprehension f l' with
          | Raise e => Raise e
          | Ok ys => Ok (y :: ys)
          end
      end
  end.

End Json.

(** ** The clock *)

(** [datetime.now()] and [strftime] belong to the platform. *)
Class Clock : Type := {
  datetime : Type;
  strftime : datetime -> string -> string;
}.

(** ** distribute_pol.py *)

Module Distribute.

Definition POLYGON_CHAIN_ID : Z := 137.
Definition GAS_LIMIT : Z := 21000.
Definition PRIVATE_KEY_FILE : string := "privatekey.txt".

(** The dict built at the head of the [try] block. *)
Record transaction : Type := {
  tx_from : string;
  tx_to : string;
  tx_value : Z;
  tx_nonce : Z;
  tx_gas : Z;
  tx_gasPrice : Z;
  tx_chainId : Z;
}.

Inductive unit_name : Type := ether | gwei.

(** The part of [web3] and [eth_account] the script uses. [chain] is the
    state of the remote node as the endpoint shows it; a remote call may
    change it and may raise. *)
Class Web3 : Type := {
  amount_t : Type;                              (* a Python float *)
  chain : Type;
  signed_t : Type;                              (* a SignedTransaction *)
  receipt_t : Type;
  to_wei : amount_t -> result Z;                (* Web3.to_wei(x, 'ether') *)
  from_wei : Z -> unit_name -> result string;   (* Web3.from_wei(n, unit) *)
  to_checksum_address : json -> result string;
  from_key_address : string -> result string;   (* from_key(k).address *)
  get_transaction_count : chain -> string -> chain * result Z;
  get_balance : chain -> string -> chain * result Z;
  gas_price : chain -> chain * result Z;
  sign_transaction : transaction -> string -> result signed_t;
  rawTransaction : signed_t -> list byte;
  send_raw_transaction : chain -> list byte -> chain * result (list byte);
  wait_for_transaction_receipt :
    chain -> list byte -> chain * result receipt_t;
  transactionHash_hex : receipt_t -> result string;
                                   (* receipt['transactionHash'].hex() *)
}.

(** The two text streams the script writes to, [sys.stdout] and the log
    file it opens in text mode. A stream encodes what it is given and
    raises [UnicodeEncodeError], writing nothing, on a text its encoding
    has no bytes for. Of what the script writes, the recipient, which comes
    from the wallet file as [json.load] made it (a lone surrogate, say),
    is what a stream may not take; the words and numbers of the script
    itself are ASCII, and file names and the texts of the libraries are
    taken to be encodable. An address that [to_checksum_address] accepts
    is made of [0x] and hexadecimal digits, which every encoding has. *)
Class Streams `{Web3} : Type := {
  stdout_encodes : json -> bool;        (* of str(recipient), for print *)
  log_encodes : json -> bool;           (* the same for log_file.write *)
  address_encodes : forall recipient : json,
    is_ok (to_checksum_address recipient) = true ->
    stdout_encodes recipient = true /\ log_encodes recipient = true;
}.

(** What the script finds on the machine it runs on. *)
Record env `{Clock} : Type := {
  private_key_file : option string;     (* the text of privatekey.txt *)
  glob_wallet_files : list string;      (* glob.glob(WALLET_FILE_PATTERN) *)
  getctime : string -> Z;               (* os.path.getctime *)
  json_load : string -> result json;    (* open(name) and json.load *)
  now : nat -> datetime;                (* the n-th reading of the clock *)
}.

(** [[wallet['public_key'] for wallet in wallets_data]] *)
Definition public_keys (wallets_data : json) : result (list json) :=
  match Json.iterate wallets_data with
  | Raise e => Raise e
  | Ok wallets =>
      Json.comprehension (fun wallet => Json.subscript wallet "public_key")
        wallets
  end.

Section Script.

Context `{Clock} `{Web3} `{!Streams}.

(** A line or block of text written to the log file or printed. The three
    last ones are the outcomes of the loop. *)
Inductive message : Type :=
| Text (text : string)
| Line (label value : string)                   (* f"{label}: {value}" *)
| IntLine (label : string) (value : Z)
| AmountLine (label : string) (value : amount_t)
| WouldSend (i : nat) (amount : amount_t) (recipient : json)
    (gas_price : string) (gas_limit : Z) (total_cost : string)
| Sent (i : nat) (amount : amount_t) (recipient : json)
    (transaction_hash : string)
| Failed (i : nat) (recipient : json) (error : exn).

Definition is_outcome (m : message) : bool :=
  match m with
  | WouldSend _ _ _ _ _ _ | Sent _ _ _ _ | Failed _ _ _ => true
  | _ => false
  end.

Definition is_failed (m : message) : bool :=
  match m with Failed _ _ _ => true | _ => false end.

(** An outcome after which the nonce counter was incremented. *)
Definition is_completed (m : message) : bool :=
  match m with
  | WouldSend _ _ _ _ _ _ | Sent _ _ _ _ => true
  | _ => false
  end.

(** A call that signs or goes to the network. *)
Inductive call : Type :=
| GetTransactionCount (address : string)
| GetBalance (address : string)
| GetGasPrice
| SignTransaction (t : transaction)
| SendRawTransaction (raw : list byte)
| WaitForReceipt (tx_hash : list byte).

(** The state the script runs in. [nonce] is its local variable of that
    name. [built] lists, with their positions, the transaction dicts the
    loop has built; nothing reads it. *)
Record state : Type := {
  node : chain;
  clock_readings : nat;
  console : list message;
  log_file : option (string * list message);
  calls : list call;
  nonce : Z;
  built : list (nat * transaction);
}.

Definition set_node (c : chain) (s : state) : state :=
  {| node := c; clock_readings := clock_readings s; console := console s;
     log_file := log_file s; calls := calls s; nonce := nonce s;
     built := built s |}.

Definition add_call (c : call) (s : state) : state :=
  {| node := node s; clock_readings := clock_readings s;
     console := console s; log_file := log_file s;
     calls := calls s ++ [c]; nonce := nonce s; built := built s |}.

Definition set_nonce (n : Z) (s : state) : state :=
  {| node := node s; clock_readings := clock_readings s;
     console := console s; log_file := log_file s; calls := calls s;
     nonce := n; built := built s |}.

Definition add_built (i : nat) (t : transaction) (s : state) : state :=
  {| node := node s; clock_readings := clock_readings s;
     console := console s; log_file := log_file s; calls := calls s;
     nonce := nonce s; built := built s ++ [(i, t)] |}.

(** The recipient a text holds. *)
Definition recipient_of (m : message) : option json :=
  match m with
  | WouldSend _ _ recipient _ _ _ | Sent _ _ recipient _
  | Failed _ recipient _ => Some recipient
  | _ => None
  end.

(** Whether a stream that encodes the recipients [encodes] says it does
    can take the text. *)
Definition encodable (encodes : json -> bool) (m : message) : bool :=
  match recipient_of m with
  | Some recipient => encodes recipient
  | None => true
  end.

(** [print(m)] *)
Definition print (m : message) : prog state unit :=
  if encodable stdout_encodes m
  then
    modify (fun s =>
      {| node := node s; clock_readings := clock_readings s;
         console := console s ++ [m]; log_file := log_file s;
         calls := calls s; nonce := nonce s; built := built s |})
  else raise (External "UnicodeEncodeError").

(** [open(name, 'w')] *)
Definition open_log (name : string) : prog state unit :=
  modify (fun s =>
    {| node := node s; clock_readings := clock_readings s;
       console := console s; log_file := Some (name, []);
       calls := calls s; nonce := nonce s; built := built s |}).

(** [log_file.write(m)] *)
Definition write (m : message) : prog state unit :=
  if encodable log_encodes m
  then
    modify (fun s =>
      {| node := node s; clock_readings := clock_readings s;
         console := console s;
         log_file :=
           match log_file s with
           | Some (name, lines) => Some (name, lines ++ [m])
           | None => None
           end;
         calls := calls s; nonce := nonce s; built := built s |})
  else raise (External "UnicodeEncodeError").

(** [datetime.now()] *)
Definition read_clock (e : env) : prog state datetime :=
  fun s =>
    ({| node := node s; clock_readings := S (clock_readings s);
        console := console s; log_file := log_file s; calls := calls s;
        nonce := nonce s; built := built s |},
     Ok (now e (clock_readings s))).

(** A remote call: it is recorded, the node moves on, the answer or the
    exception comes back. *)
Definition remote {A} (c : call) (f : chain -> chain * result A)
  : prog state A :=
  fun s =>
    let s := add_call c s in
    let answer := f (node s) in
    (set_node (fst answer) s, snd answer).

(** [w3.eth.account.sign_transaction]: local, but recorded all the same. *)
Definition sign (t : transaction) (key : string) : prog state signed_t :=
  fun s => (add_call (SignTransaction t) s, sign_transaction t key).

(** [max(l, key=key)] for a list that is not empty: the first of the
    greatest elements. *)
Fixpoint max_by {A} (key : A -> Z) (best : A) (l : list A) : A :=
  match l with
  | [] => best
  | x :: l' => max_by key (if (key best <? key x)%Z then x else best) l'
  end.

Definition get_latest_wallets_file (e : env) : prog state string :=
  (let wallet_files := glob_wallet_files e in
   match wallet_files with
   | [] => raise NoRecipientFile
   | first :: others =>
       let latest_file := max_by (getctime e) first others in
       print (Line "Using latest wallet file" latest_file) ;;;
       ret latest_file
   end)%prog.

(** The state of a run that has not started: [nonce] is not yet bound. *)
Definition initial_state (c : chain) : state :=
  {| node := c; clock_readings := 0; console := []; log_file := None;
     calls := []; nonce := 0; built := [] |}.

(** [create_log_file], a context manager: what precedes its [yield], the
    body of the [with] statement, what follows the [yield]. *)
Definition create_log_file (e : env) (test_mode : bool)
    (body : prog state unit) : prog state unit :=
  (t <- read_clock e ;;
   let timestamp := strftime t "%Y%m%d_%H%M%S" in
   let log_filename := "pol_distribution_log_" +:+ timestamp +:+ ".txt" in
   open_log log_filename ;;;
   t' <- read_clock e ;;
   write (Line "POL Distribution Log" (strftime t' "%Y-%m-%d %H:%M:%S")) ;;;
   body ;;;
   print (Line (if test_mode then "Simulation complete"
                else "Distribution complete") log_filename))%prog.

Definition log_transaction_details (sender_address : string)
    (sender_balance gas_price total_gas total_per_transaction
       total_needed : Z)
    (test_mode : bool) (latest_file : string) (amount : amount_t)
  : prog state unit :=
  (write (Line "Sender Address" sender_address) ;;;
   v <- lift (from_wei sender_balance ether) ;;
   write (Line "Sender Balance" v) ;;;
   write (AmountLine "Amount per wallet" amount) ;;;
   v <- lift (from_wei gas_price gwei) ;;
   write (Line "Gas Price" v) ;;;
   write (IntLine "Gas Limit" GAS_LIMIT) ;;;
   v <- lift (from_wei total_gas ether) ;;
   write (Line "Gas Cost per transaction" v) ;;;
   v <- lift (from_wei total_per_transaction ether) ;;
   write (Line "Total per transaction" v) ;;;
   v <- lift (from_wei total_needed ether) ;;
   write (Line "Total needed" v) ;;;
   write (Line "Test Mode" (if test_mode then "Yes" else "No")) ;;;
   write (Line "Using wallet file" latest_file))%prog.

Section Loop.

(** The locals of [distribute_pol] the loop reads. *)
Variables (test_mode : bool) (amount : amount_t).
Variables (sender_address sender_private_key : string).
Variables (amount_wei gas_price total_per_transaction : Z).

(** The [try] block down to the binding of [log_message]. *)
Definition attempt (i : nat) (recipient : json) : prog state message :=
  (to <- lift (to_checksum_address recipient) ;;
   current <- gets nonce ;;
   let transaction :=
     {| tx_from := sender_address; tx_to := to; tx_value := amount_wei;
        tx_nonce := current; tx_gas := GAS_LIMIT; tx_gasPrice := gas_price;
        tx_chainId := POLYGON_CHAIN_ID |} in
   modify (add_built i transaction) ;;;
   if test_mode then
     price <- lift (from_wei (tx_gasPrice transaction) gwei) ;;
     cost <- lift (from_wei total_per_transaction ether) ;;
     ret (WouldSend i amount recipient price (tx_gas transaction) cost)
   else
     signed_txn <- sign transaction sender_private_key ;;
     tx_hash <- remote (SendRawTransaction (rawTransaction signed_txn))
                  (fun c => send_raw_transaction c
                              (rawTransaction signed_txn)) ;;
     receipt <- remote (WaitForReceipt tx_hash)
                  (fun c => wait_for_transaction_receipt c tx_hash) ;;
     hash <- lift (transactionHash_hex receipt) ;;
     ret (Sent i amount recipient hash))%prog.

(** The body of the [for] loop. The handler prints and writes like any
    other statement: what it raises leaves the loop. *)
Definition iteration (i : nat) (recipient : json) : prog state unit :=
  try_except
    (log_message <- attempt i recipient ;;
     print log_message ;;;
     write log_message ;;;
     current <- gets nonce ;;
     modify (set_nonce (current + 1)%Z))%prog
    (fun e =>
       let error_message := Failed i recipient e in
       print error_message ;;;
       write error_message)%prog.

(** [for i, recipient in enumerate(recipients, i): ...] *)
Fixpoint send_loop (i : nat) (recipients : list json) : prog state unit :=
  match recipients with
  | [] => ret tt
  | recipient :: rest =>
      (iteration i recipient ;;; send_loop (S i) rest)%prog
  end.

End Loop.

(** [distribute_pol]. The connection test the module makes when it is
    loaded comes before any call of it. *)
Definition distribute_pol (e : env) (test_mode : bool) (amount : amount_t)
  : prog state unit :=
  (sender_private_key <- lift (Credential.load_private_key
                                 (private_key_file e)) ;;
   latest_file <- get_latest_wallets_file e ;;
   wallets_data <- lift (json_load e latest_file) ;;
   recipient_addresses <- lift (public_keys wallets_data) ;;
   amount_wei <- lift (to_wei amount) ;;
   sender_address <- lift (from_key_address sender_private_key) ;;
   count <- remote (GetTransactionCount sender_address)
              (fun c => get_transaction_count c sender_address) ;;
   modify (set_nonce count) ;;;
   sender_balance <- remote (GetBalance sender_address)
                       (fun c => get_balance c sender_address) ;;
   gas_price <- remote GetGasPrice gas_price ;;
   let total_gas := (gas_price * GAS_LIMIT)%Z in
   let total_per_transaction := (amount_wei + total_gas)%Z in
   let total_needed :=
     (total_per_transaction * Z.of_nat (length recipient_addresses))%Z in
   v <- lift (from_wei sender_balance ether) ;;
   print (Line "Sender balance" v) ;;;
   print (Text "Amount per transaction:") ;;;
   print (AmountLine "POL to send" amount) ;;;
   v <- lift (from_wei gas_price gwei) ;;
   print (Line "Gas price" v) ;;;
   print (IntLine "Gas limit" GAS_LIMIT) ;;;
   v <- lift (from_wei total_gas ether) ;;
   print (Line "Gas cost" v) ;;;
   v <- lift (from_wei total_per_transaction ether) ;;
   print (Line "Total per transaction" v) ;;;
   v <- lift (from_wei total_needed ether) ;;
   print (Line "Total needed for all transactions" v) ;;;
   (if (sender_balance <? total_needed)%Z
    then
      _ <- lift (from_wei total_needed ether) ;;
      _ <- lift (from_wei sender_balance ether) ;;
      raise (InsufficientBalance total_needed sender_balance)
    else ret tt) ;;;
   create_log_file e test_mode
     (log_transaction_details sender_address sender_balance gas_price
        total_gas total_per_transaction total_needed test_mode latest_file
        amount ;;;
      send_loop test_mode amount sender_address sender_private_key
        amount_wei gas_price total_per_transaction 1 recipient_addresses)
  )%prog.

(** The outcomes written to the log file of a state. *)
Definition logged (s : state) : list message :=
  match log_file s with
  | Some (_, lines) => lines
  | None => []
  end.

Definition outcomes (s : state) : list message :=
  List.filter is_outcome (logged s).

Definition is_transaction_call (c : call) : bool :=
  match c with
  | SignTransaction _ | SendRawTransaction _ | WaitForReceipt _ => true
  | _ => false
  end.

End Script.

End Distribute.

(** ** create_wallet.py *)

Module CreateWallet.

(** [str(n)] for an int. *)
Definition str_int (n : Z) : string := NilEmpty.string_of_int (Z.to_int n).

(** [range(a, b)] *)
Definition range (a b : Z) : list Z :=
  map (fun k => (a + Z.of_nat k)%Z) (seq 0 (Z.to_nat (b - a))).

Definition hex_digit (n : N) : ascii :=
  if (n <? 10)%N then ascii_of_N (48 + n) else ascii_of_N (87 + n).

Fixpoint hex_digits (bs : list byte) : string :=
  match bs with
  | [] => EmptyString
  | b :: rest =>
      let n := Byte.to_N b in
      String (hex_digit (n / 16)) (String (hex_digit (n mod 16))
        (hex_digits rest))
  end.

(** [HexBytes.hex()]: lower case, with the prefix. *)
Definition hex (bs : list byte) : string := "0x" +:+ hex_digits bs.

Definition hex_value (c : ascii) : option N :=
  let n := N_of_ascii c in
  if ((48 <=? n) && (n <=? 57))%N then Some (n - 48)%N
  else if ((97 <=? n) && (n <=? 102))%N then Some (n - 87)%N
  else None.

Fixpoint unhex_digits (s : string) : option (list byte) :=
  match s with
  | EmptyString => Some []
  | String hi (String lo rest) =>
      match hex_value hi, hex_value lo, unhex_digits rest with
      | Some h, Some l, Some bs =>
          match Byte.of_N (16 * h + l) with
          | Some b => Some (b :: bs)
          | None => None
          end
      | _, _, _ => None
      end
  | String _ EmptyString => None
  end.

(** The bytes a prefixed hex string stands for. *)
Definition unhex (s : string) : option (list byte) :=
  match s with
  | String "0" (String "x" digits) => unhex_digits digits
  | _ => None
  end.

(** A [LocalAccount] of [eth_account]. *)
Record account : Type := { address : string; key : list byte }.

(** The part of [mnemonic] and [eth_account] the script uses. An account
    made from a key keeps that key. *)
Class WalletLib : Type := {
  to_mnemonic : list byte -> string;       (* Mnemonic.to_mnemonic *)
  to_seed : string -> string -> list byte; (* to_seed(mnemonic, passphrase) *)
  from_key : list byte -> result account;  (* Account.from_key *)
  from_key_key : forall k a, from_key k = Ok a -> key a = k;
}.

(** The part of [fpdf] the script uses, with [create_wallet_card], which
    only draws on the document. *)
Class Fpdf : Type := {
  pdf_t : Type;
  FPDF : pdf_t;
  add_page : pdf_t -> pdf_t;
  set_auto_page_break : pdf_t -> pdf_t;
  create_wallet_card : pdf_t -> json -> pdf_t;
}.

Record env `{Clock} : Type := {
  token_bytes : nat -> list byte;   (* the n-th secrets.token_bytes(16) *)
  now : nat -> datetime;            (* the n-th reading of the clock *)
}.

Section Script.

Context `{Clock} `{WalletLib} `{Fpdf}.

Inductive file : Type :=
| JsonFile (document : json)
| PdfFile (document : pdf_t).

(** The state the script runs in. What it prints is left out. *)
Record state : Type := {
  entropy_reads : nat;
  clock_readings : nat;
  files : gmap string file;
}.

Definition read_entropy (e : env) : prog state (list byte) :=
  fun s =>
    ({| entropy_reads := S (entropy_reads s);
        clock_readings := clock_readings s; files := files s |},
     Ok (token_bytes e (entropy_reads s))).

Definition read_clock (e : env) : prog state datetime :=
  fun s =>
    ({| entropy_reads := entropy_reads s;
        clock_readings := S (clock_readings s); files := files s |},
     Ok (now e (clock_readings s))).

(** [with open(name, 'w') as f: json.dump(document, f)], or
    [pdf.output(name)]: the file is created or replaced. *)
Definition write_file (name : string) (f : file) : prog state unit :=
  modify (fun s =>
    {| entropy_reads := entropy_reads s;
       clock_readings := clock_readings s;
       files := <[name := f]> (files s) |}).

(** The truth value of [wallet_number]. *)
Definition truthy (wallet_number : option Z) : bool :=
  match wallet_number with
  | None => false
  | Some n => negb (n =? 0)%Z
  end.

Definition generate_wallet (e : env) (wallet_number : option Z)
  : prog state (json * string) :=
  (entropy <- read_entropy e ;;           (* mnemo.generate(strength=128) *)
   let mnemonic := to_mnemonic entropy in
   let seed := to_seed mnemonic "" in
   account <- lift (from_key (firstn 32 seed)) ;;
   t <- read_clock e ;;
   let wallet_data :=
     JObj [("wallet_number",
            JInt (match wallet_number with
                  | Some n => if truthy wallet_number then n else 1%Z
                  | None => 1%Z
                  end));
           ("public_key", JStr (address account));
           ("private_key", JStr (hex (key account)));
           ("mnemonic", JStr mnemonic);
           ("created_at", JStr (strftime t "%Y-%m-%d %H:%M:%S"))] in
   t' <- read_clock e ;;
   let timestamp := strftime t' "%Y%m%d_%H%M%S" in
   let filename :=
     match wallet_number with
     | Some n =>
         if truthy wallet_number
         then "wallet_" +:+ timestamp +:+ "_" +:+ str_int n +:+ ".json"
         else "wallet_" +:+ timestamp +:+ ".json"
     | None => "wallet_" +:+ timestamp +:+ ".json"
     end in
   write_file filename (JsonFile wallet_data) ;;;
   ret (wallet_data, filename))%prog.

(** The locals of [generate_multiple_wallets] its loop assigns. *)
Record locals : Type := {
  all_wallets : list json;
  public_addresses : list json;
  pdf : pdf_t;
}.

(** [for i in indices: ...] *)
Fixpoint wallet_loop (e : env) (count : Z) (indices : list Z) (l : locals)
  : prog state locals :=
  match indices with
  | [] => ret l
  | i :: rest =>
      (generated <- generate_wallet e (Some i) ;;
       let wallet_data := fst generated in
       let all_wallets := all_wallets l ++ [wallet_data] in
       public_key <- lift (Json.subscript wallet_data "public_key") ;;
       let public_addresses := public_addresses l ++ [public_key] in
       let pdf := create_wallet_card (pdf l) wallet_data in
       let pdf :=
         if ((i mod 5 =? 0) && (i <? count))%Z then add_page pdf else pdf in
       wallet_loop e count rest
         {| all_wallets := all_wallets;
            public_addresses := public_addresses;
            pdf := pdf |})%prog
  end.

(** The clock of the addresses file is read after the file is opened and
    before it is written; nothing else happens in between. *)
Definition generate_multiple_wallets (e : env) (count : Z)
  : prog state unit :=
  (t <- read_clock e ;;
   let timestamp := strftime t "%Y%m%d_%H%M%S" in
   let pdf_filename := "wallet_cards_" +:+ timestamp +:+ ".pdf" in
   l <- wallet_loop e count (range 1 (count + 1))
          {| all_wallets := []; public_addresses := [];
             pdf := set_auto_page_break (add_page FPDF) |} ;;
   write_file pdf_filename (PdfFile (pdf l)) ;;;
   let master_filename := "all_wallets_" +:+ timestamp +:+ ".json" in
   write_file master_filename (JsonFile (JArr (all_wallets l))) ;;;
   let addresses_filename :=
     "public_addresses_" +:+ timestamp +:+ ".json" in
   t' <- read_clock e ;;
   write_file addresses_filename
     (JsonFile
        (JObj [("addresses", JArr (public_addresses l));
               ("count", JInt (Z.of_nat (length (public_addresses l))));
               ("created_at", JStr (strftime t' "%Y-%m-%d %H:%M:%S"))]))
  )%prog.

Definition generate_sample_card (e : env) : prog state unit :=
  (t <- read_clock e ;;
   let sample_data :=
     JObj [("wallet_number", JInt 1);
           ("public_key", JStr "0x1234567890abcdef1234567890abcdef12345678");
           ("private_key",
            JStr ("0xabcdef1234567890abcdef1234567890"
                  +:+ "abcdef1234567890abcdef1234567890"));
           ("mnemonic",
            JStr ("abandon ability able about above absent "
                  +:+ "absorb abstract absurd abuse access accident"));
           ("created_at", JStr (strftime t "%Y-%m-%d %H:%M:%S"))] in
   write_file "sample_wallet_card.pdf"
     (PdfFile (create_wallet_card (add_page FPDF) sample_data)))%prog.

(** The script run with [--sample] or not and with [--count count]. *)
Definition main (e : env) (sample : bool) (count : Z) : prog state unit :=
  (if sample then generate_sample_card e
   else if (count <? 1)%Z then ret tt
   else if (count =? 1)%Z then
     generated <- generate_wallet e None ;;
     t <- read_clock e ;;
     let pdf_filename :=
       "wallet_card_" +:+ strftime t "%Y%m%d_%H%M%S" +:+ ".pdf" in
     write_file pdf_filename
       (PdfFile (create_wallet_card (add_page FPDF) (fst generated)))
   else generate_multiple_wallets e count)%prog.

End Script.

End CreateWallet.

(** ** Between the two scripts: file names and cards *)

Module WalletFiles.

Definition WALLET_FILE_PATTERN : string := "all_wallets_*.json".

(** [fnmatch.fnmatch(name, pattern)] where case matters, for a pattern of
    literal characters, [*] and [?]: [*] stands for any text, [?] for any one
    character. *)
Fixpoint fnmatch_from (pattern : string) : string -> bool :=
  match pattern with
  | EmptyString => Py.is_empty
  | String p pattern' =>
      if Ascii.eqb p "*" then
        fix star (name : string) : bool :=
          fnmatch_from pattern' name
          || match name with
             | EmptyString => false
             | String _ name' => star name'
             end
      else if Ascii.eqb p "?" then
        fun name =>
          match name with
          | EmptyString => false
          | String _ name' => fnmatch_from pattern' name'
          end
      else
        fun name =>
          match name with
          | EmptyString => false
          | String c name' => Ascii.eqb p c && fnmatch_from pattern' name'
          end
  end.

Definition fnmatch (name pattern : string) : bool :=
  fnmatch_from pattern name.

(** [glob.glob(pattern)] in a directory whose entries are [listing], for a
    pattern that does not begin with a dot: entries that do are hidden. *)
Definition glob (listing : list string) (pattern : string) : list string :=
  List.filter
    (fun name => negb (Py.startswith name ".") && fnmatch name pattern)
    listing.

(** A character that stands for itself in a pattern. *)
Definition is_literal (c : ascii) : bool :=
  negb (Ascii.eqb c "*") && negb (Ascii.eqb c "?").

End WalletFiles.

Module WalletCard.

(** [s.replace(old, new)] for an [old] that is not empty: from left to
    right, every occurrence of [old] that does not overlap an earlier one.
    [skip] counts the characters of an occurrence still to pass. *)
Fixpoint replace_from (old new : string) (skip : nat) (s : string)
  : string :=
  match s with
  | EmptyString => EmptyString
  | String c s' =>
      match skip with
      | S k => replace_from old new k s'
      | O =>
          if String.prefix old s
          then new +:+ replace_from old new (String.length old - 1) s'
          else String c (replace_from old new 0 s')
      end
  end.

(** [s.replace(old, new)] for an empty [old]: [new] before every
    character and at the end. *)
Fixpoint intersperse (new s : string) : string :=
  match s with
  | EmptyString => new
  | String c s' => new +:+ String c (intersperse new s')
  end.

Definition replace (s old new : string) : string :=
  if Py.is_empty old then intersperse new s else replace_from old new 0 s.

(** The text [create_wallet_card] has a QR code made of: the value of
    [private_key] without its prefix. A value that is not a string has no
    [replace]. *)
Definition qr_data (wallet_data : json) : result string :=
  match Json.subscript wallet_data "private_key" with
  | Raise e => Raise e
  | Ok (JStr private_key) => Ok (replace private_key "0x" "")
  | Ok _ => Raise (External "AttributeError")
  end.

(** Any character but the one of the prefix that no digit is. *)
Definition not_x (c : ascii) : bool := negb (Ascii.eqb c "x").

End WalletCard.

(** ** Notions used in the statements *)

Module DistributeSpec.

Import Distribute.

Section Notions.

Context `{Clock} `{Web3} `{!Streams}.

Variables (test_mode : bool) (amount : amount_t).
Variables (sender_address sender_private_key : string).
Variables (amount_wei gas_price total_per_transaction : Z).

Local Abbreviation attempt :=
  (attempt test_mode amount sender_address sender_private_key amount_wei
     gas_price total_per_transaction).
Local Abbreviation iteration :=
  (iteration test_mode amount sender_address sender_private_key amount_wei
     gas_price total_per_transaction).
Local Abbreviation send_loop :=
  (send_loop test_mode amount sender_address sender_private_key amount_wei
     gas_price total_per_transaction).

(** What an iteration at position [i] writes for what its [try] block
    came to. *)
Definition outcome_of (i : nat) (recipient : json) (r : result message)
  : message :=
  match r with
  | Ok log_message => log_message
  | Raise e => Failed i recipient e
  end.

(** The state in which a loop started in [s] reaches the recipient after
    the first [k], or in which it has stopped before. *)
Definition state_before (recipients : list json) (s : state) (k : nat)
  : state :=
  fst (send_loop 1 (firstn k recipients) s).

(** The outcomes, iteration by iteration, of a loop that gets through
    its recipients. *)
Fixpoint run_outcomes (i : nat) (recipients : list json) (s : state)
  : list message :=
  match recipients with
  | [] => []
  | r :: rest =>
      outcome_of i r (snd (attempt i r s))
        :: run_outcomes (S i) rest (fst (iteration i r s))
  end.

Definition completed (ms : list message) : Z :=
  Z.of_nat (length (List.filter is_completed ms)).

(** The message [m] is an outcome for position [i] and recipient [r]. *)
Definition concerns (i : nat) (r : json) (m : message) : Prop :=
  match m with
  | WouldSend i' _ r' _ _ _ | Sent i' _ r' _ | Failed i' r' _ =>
      i' = i /\ r' = r
  | _ => False
  end.

(** The recipients whose address converts. *)
Definition convertible (recipients : list json) : Z :=
  Z.of_nat
    (length (List.filter (fun r => is_ok (to_checksum_address r))
               recipients)).

(** Both streams can take the text of the recipient. *)
Definition writable (recipient : json) : bool :=
  stdout_encodes recipient && log_encodes recipient.

(** The recipients before the first one that a stream cannot take. *)
Fixpoint served (recipients : list json) : list json :=
  match recipients with
  | [] => []
  | r :: rest => if writable r then r :: served rest else []
  end.

End Notions.

End DistributeSpec.

Module CreateWalletSpec.

Import CreateWallet.

Definition not_underscore (c : ascii) : bool := negb (Ascii.eqb c "_").

Section Notions.

Context `{Clock} `{WalletLib}.

(** The key made from the [n]-th draw of entropy: the first 32 bytes of
    the seed of its mnemonic, with the empty passphrase. *)
Definition derived_key (e : env) (n : nat) : list byte :=
  firstn 32 (to_seed (to_mnemonic (token_bytes e n)) "").

(** The name of the record file of wallet [i] written at time [t]. *)
Definition record_filename (t : datetime) (i : Z) : string :=
  "wallet_" +:+ strftime t "%Y%m%d_%H%M%S" +:+ "_" +:+ str_int i
    +:+ ".json".

End Notions.

End CreateWalletSpec.

Module RunNotions.

Import Distribute.

Section Notions.

Context `{Web3}.

(** From [s] to [s'] no transaction was built, signed, sent or waited
    for. *)
Definition untouched (s s' : state) : Prop :=
  List.filter is_transaction_call (calls s')
  = List.filter is_transaction_call (calls s) /\
  built s' = built s.

(** A statement during which that holds, however it ends. *)
Definition quiet {A} (m : prog state A) : Prop :=
  forall s s' r, m s = (s', r) -> untouched s s'.

(** A statement during which that holds whenever it raises. *)
Definition aborts_clean {A} (m : prog state A) : Prop :=
  forall s s' ex, m s = (s', Raise ex) -> untouched s s'.

Definition is_sign (c : call) : bool :=
  match c with SignTransaction _ => true | _ => false end.

Definition is_send (c : call) : bool :=
  match c with SendRawTransaction _ => true | _ => false end.

Definition is_wait (c : call) : bool :=
  match c with WaitForReceipt _ => true | _ => false end.

Definition is_sent (m : message) : bool :=
  match m with Sent _ _ _ _ => true | _ => false end.

Definition count {A} (p : A -> bool) (l : list A) : nat :=
  length (List.filter p l).

End Notions.

End RunNotions.

(** ** A small implementation of the collaborators

    Used to run the scripts on concrete inputs. *)

Module Demo.

(** Time is a number of seconds; every format prints that number. *)
Definition clock : Clock :=
  {| datetime := nat;
     strftime := fun t _ => CreateWallet.str_int (Z.of_nat t) |}.

(** A node that answers nonce 7, balance [b] and gas price 30, and accepts
    every transaction; sums are whole numbers of POL; an address is a
    string of 42 characters. *)
Definition web3 : Distribute.Web3 :=
  {| Distribute.amount_t := Z;
     Distribute.chain := Z;
     Distribute.signed_t := Distribute.transaction;
     Distribute.receipt_t := list byte;
     Distribute.to_wei := fun a => Ok (a * 10 ^ 18)%Z;
     Distribute.from_wei := fun n _ => Ok (CreateWallet.str_int n);
     Distribute.to_checksum_address := fun r =>
       match r with
       | JStr a =>
           if (String.length a =? 42)%nat then Ok a
           else Raise (External "invalid address")
       | _ => Raise (External "invalid address")
       end;
     Distribute.from_key_address := fun _ => Ok "0xSender";
     Distribute.get_transaction_count := fun c _ => (c, Ok 7%Z);
     Distribute.get_balance := fun c _ => (c, Ok c);
     Distribute.gas_price := fun c => (c, Ok 30%Z);
     Distribute.sign_transaction := fun t _ => Ok t;
     Distribute.rawTransaction := fun _ => [x00];
     Distribute.send_raw_transaction := fun c raw => (c, Ok raw);
     Distribute.wait_for_transaction_receipt := fun c h => (c, Ok h);
     Distribute.transactionHash_hex := fun h => Ok (CreateWallet.hex h) |}.

(** A recipient that is no address and that no stream takes: the text
    which [json.load] makes of the escape [\ud800], a lone surrogate. The
    strings here are strings of bytes; the text stands as its escape. *)
Definition lone_surrogate : json := JStr "\ud800".

Definition encodes (recipient : json) : bool :=
  match recipient with
  | JStr a => negb (String.eqb a "\ud800")
  | _ => true
  end.

Definition encodes_address (recipient : json) :
  is_ok (@Distribute.to_checksum_address web3 recipient) = true ->
  encodes recipient = true /\ encodes recipient = true.
Proof.
  destruct recipient as [| | |a| |]; try discriminate. simpl.
  destruct (String.eqb_spec a "\ud800") as [->|]; [discriminate | auto].
Defined.

(** Streams with a strict encoding, and a console that takes everything
    beside a strict log file. *)
Definition streams : @Distribute.Streams web3 :=
  {| Distribute.stdout_encodes := encodes;
     Distribute.log_encodes := encodes;
     Distribute.address_encodes := encodes_address |}.

Definition lenient_console_address (recipient : json) :
  is_ok (@Distribute.to_checksum_address web3 recipient) = true ->
  true = true /\ encodes recipient = true.
Proof. intros C. split; [reflexivity | now apply encodes_address]. Defined.

Definition lenient_console : @Distribute.Streams web3 :=
  {| Distribute.stdout_encodes := fun _ => true;
     Distribute.log_encodes := encodes;
     Distribute.address_encodes := lenient_console_address |}.

(** A credential of the right length that is not hexadecimal. *)
Definition sixty_four_z : string :=
  "zzzzzzzzzzzzzzzzzzzzzzzzzzzzzzzzzzzzzzzzzzzzzzzzzzzzzzzzzzzzzzzz".

Definition good_address : json :=
  JStr "0x52908400098527886E0F7030069857D2E4169EE7".

Definition bad_address : json := JStr "not-an-address".

Definition wallets_document : json :=
  JArr [JObj [("wallet_number", JInt 1); ("public_key", bad_address)];
        JObj [("wallet_number", JInt 2); ("public_key", good_address)]].

Definition distribute_env : @Distribute.env clock :=
  @Distribute.Build_env clock
    (Some "4c0883a69102937d6231471b5dbb6204fe5129617082792ae468d01a3f362318
")
    ["all_wallets_1.json"]
    (fun _ => 0%Z)
    (fun _ => Ok wallets_document)
    (fun n => n).

(** A state in which the log file is open and the nonce is 7. *)
Definition open_state : @Distribute.state web3 :=
  @Distribute.Build_state web3 0%Z 0 []
    (Some ("pol_distribution_log_0.txt", [])) [] 7%Z [].

(** The seed is the mnemonic's own bytes, the mnemonic the hex of the
    entropy; a key must not be empty. *)
Definition wallet_lib_from_key (k : list byte)
  : result CreateWallet.account :=
  match k with
  | [] => Raise (External "invalid key")
  | _ => Ok {| CreateWallet.address := CreateWallet.hex (firstn 20 k);
               CreateWallet.key := k |}
  end.

Definition wallet_lib_from_key_key k a :
  wallet_lib_from_key k = Ok a -> CreateWallet.key a = k.
Proof. destruct k; intros E; inversion E; reflexivity. Defined.

Definition wallet_lib : CreateWallet.WalletLib :=
  {| CreateWallet.to_mnemonic := CreateWallet.hex_digits;
     CreateWallet.to_seed := fun m _ => list_byte_of_string m;
     CreateWallet.from_key := wallet_lib_from_key;
     CreateWallet.from_key_key := wallet_lib_from_key_key |}.

(** A document is the list of the records drawn, a page break is
    [JNull]. *)
Definition fpdf : CreateWallet.Fpdf :=
  {| CreateWallet.pdf_t := list json;
     CreateWallet.FPDF := [];
     CreateWallet.add_page := fun p => p ++ [JNull];
     CreateWallet.set_auto_page_break := fun p => p;
     CreateWallet.create_wallet_card := fun p w => p ++ [w] |}.

(** The loop over a recipient whose address does not convert and one
    whose address does, from [open_state]. *)
Definition recipients : list json := [bad_address; good_address].

Definition run_loop (test_mode : bool)
  : @Distribute.state web3 * result unit :=
  @Distribute.send_loop web3 streams test_mode 1%Z "0xSender" "key" 1000%Z 30%Z
    1630%Z 1 recipients open_state.

Definition wallet_env : @CreateWallet.env clock :=
  @CreateWallet.Build_env clock
    (fun n => [Byte.x01; Byte.x02; Byte.x03])
    (fun n => n).

Definition empty_disk : @CreateWallet.state fpdf :=
  @CreateWallet.Build_state fpdf 0 0 ∅.

Definition later_disk : @CreateWallet.state fpdf :=
  @CreateWallet.Build_state fpdf 4 9 ∅.

(** Two single wallets, at different times and under different numbers,
    and a run for two wallets. *)
Definition one_wallet :=
  @CreateWallet.generate_wallet clock wallet_lib fpdf wallet_env
    (Some 1%Z) empty_disk.

Definition another_wallet :=
  @CreateWallet.generate_wallet clock wallet_lib fpdf wallet_env
    None later_disk.

Definition two_wallets :=
  @CreateWallet.generate_multiple_wallets clock wallet_lib fpdf wallet_env
    2%Z empty_disk.

(** A run of the distributor on a sender that owns 10 base units. *)
Definition poor_run :=
  @Distribute.distribute_pol clock web3 streams distribute_env true 1%Z
    (@Distribute.initial_state web3 10%Z).

(** The same run for a sender that owns plenty. *)
Definition rich_run :=
  @Distribute.distribute_pol clock web3 streams distribute_env true 1%Z
    (@Distribute.initial_state web3 (10 ^ 30)%Z).

(** A machine without credential file. *)
Definition bare_env : @Distribute.env clock :=
  @Distribute.Build_env clock None [] (fun _ => 0%Z)
    (fun _ => Raise (External "FileNotFoundError")) (fun n => n).

(** The loop, not in test mode, over two recipients whose address
    converts. *)
Definition good_recipients : list json := [good_address; good_address].

Definition good_loop : @Distribute.state web3 * result unit :=
  @Distribute.send_loop web3 streams false 1%Z "0xSender" "key" 1000%Z 30%Z
    1630%Z 1 good_recipients open_state.

(** An entropy source whose second draw gives a key the library rejects,
    one whose every draw does, and a clock that stands still. *)
Definition faulty_env : @CreateWallet.env clock :=
  @CreateWallet.Build_env clock
    (fun n => if (n =? 1)%nat then [] else [Byte.x01; Byte.x02; Byte.x03])
    (fun n => n).

Definition barren_env : @CreateWallet.env clock :=
  @CreateWallet.Build_env clock (fun n => []) (fun n => n).

Definition frozen_env : @CreateWallet.env clock :=
  @CreateWallet.Build_env clock
    (fun n => [Byte.x01; Byte.x02; Byte.x03]) (fun n => 0).

(** The loop over a recipient that converts, one that no stream takes and
    one more that converts. *)
Definition halted_recipients : list json :=
  [good_address; lone_surrogate; good_address].

Definition halted_loop (test_mode : bool)
  : @Distribute.state web3 * result unit :=
  @Distribute.send_loop web3 streams test_mode 1%Z "0xSender" "key" 1000%Z
    30%Z 1630%Z 1 halted_recipients open_state.

Definition halted_loop_lenient
  : @Distribute.state web3 * result unit :=
  @Distribute.send_loop web3 lenient_console false 1%Z "0xSender" "key"
    1000%Z 30%Z 1630%Z 1 halted_recipients open_state.

(** A wallet file with such a recipient, and a whole run on it. *)
Definition halted_document : json :=
  JArr [JObj [("wallet_number", JInt 1); ("public_key", good_address)];
        JObj [("wallet_number", JInt 2); ("public_key", lone_surrogate)];
        JObj [("wallet_number", JInt 3); ("public_key", good_address)]].

Definition halted_env : @Distribute.env clock :=
  @Distribute.Build_env clock
    (Some "4c0883a69102937d6231471b5dbb6204fe5129617082792ae468d01a3f362318")
    ["all_wallets_1.json"]
    (fun _ => 0%Z)
    (fun _ => Ok halted_document)
    (fun n => n).

Definition halted_run :=
  @Distribute.distribute_pol clock web3 streams halted_env false 1%Z
    (@Distribute.initial_state web3 (10 ^ 30)%Z).

Definition wallets_with_gap : json :=
  JArr [JObj [("public_key", good_address)];
        JObj [("wallet_number", JInt 2)];
        JObj [("public_key", bad_address)]].

End Demo.

(** * Properties *)

(** ** Strings *)

Section StringFacts.

Lemma str_app_empty_r (s : string) : s +:+ EmptyString = s.
Proof. induction s as [|c s IH]; simpl; [reflexivity | now rewrite IH]. Qed.

Lemma str_app_assoc (s t u : string) : (s +:+ t) +:+ u = s +:+ (t +:+ u).
Proof. induction s as [|c s IH]; simpl; [reflexivity | now rewrite IH]. Qed.

Lemma str_length_app (s t : string) :
  String.length (s +:+ t) = String.length s + String.length t.
Proof. induction s as [|c s IH]; simpl; [reflexivity | now rewrite IH]. Qed.

Lemma str_rev_app (s t : string) : Py.rev (s +:+ t) = Py.rev t +:+ Py.rev s.
Proof.
  induction s as [|c s IH]; simpl.
  - now rewrite str_app_empty_r.
  - now rewrite IH, str_app_assoc.
Qed.

Lemma str_rev_rev (s : string) : Py.rev (Py.rev s) = s.
Proof.
  induction s as [|c s IH]; simpl; [reflexivity|].
  now rewrite str_rev_app, IH.
Qed.

Lemma without_whitespace_app (s t : string) :
  Py.without_whitespace (s +:+ t)
  = Py.without_whitespace s +:+ Py.without_whitespace t.
Proof.
  induction s as [|c s IH]; simpl; [reflexivity|].
  destruct (Py.is_whitespace c); simpl; now rewrite IH.
Qed.

Lemma without_whitespace_rev (s : string) :
  Py.without_whitespace (Py.rev s) = Py.rev (Py.without_whitespace s).
Proof.
  induction s as [|c s IH]; simpl; [reflexivity|].
  rewrite without_whitespace_app, IH. simpl.
  destruct (Py.is_whitespace c); simpl; [apply str_app_empty_r | reflexivity].
Qed.

Lemma without_whitespace_lstrip (s : string) :
  Py.without_whitespace (Py.lstrip s) = Py.without_whitespace s.
Proof.
  induction s as [|c s IH]; simpl; [reflexivity|].
  destruct (Py.is_whitespace c) eqn:E; simpl; [exact IH | now rewrite E].
Qed.

(** Stripping removes whitespace only. *)
Lemma without_whitespace_strip (s : string) :
  Py.without_whitespace (Py.strip s) = Py.without_whitespace s.
Proof.
  unfold Py.strip, Py.rstrip.
  now rewrite without_whitespace_rev, without_whitespace_lstrip,
    without_whitespace_rev, str_rev_rev, without_whitespace_lstrip.
Qed.

Lemma is_empty_app (w : string) (c : ascii) :
  Py.is_empty (w +:+ String c EmptyString) = false.
Proof. destruct w; reflexivity. Qed.

(** Joining the words of a text gives its characters that are not
    whitespace. *)
Lemma join_split_from (w s : string) :
  Py.all_chars (fun c => negb (Py.is_whitespace c)) w = true ->
  Py.join (Py.split_from w s) = w +:+ Py.without_whitespace s.
Proof.
  revert w. induction s as [|c s IH]; intros w Hw; simpl.
  - destruct w; reflexivity.
  - destruct (Py.is_whitespace c) eqn:E.
    + destruct w as [|d w]; simpl.
      * now rewrite IH.
      * now rewrite IH.
    + rewrite IH.
      * now rewrite str_app_assoc.
      * clear IH. induction w as [|d w IHw]; simpl in *.
        -- now rewrite E.
        -- apply andb_true_iff in Hw as [Hd Hw]. rewrite Hd. now apply IHw.
Qed.

Lemma join_split (s : string) :
  Py.join (Py.split s) = Py.without_whitespace s.
Proof. unfold Py.split. now rewrite join_split_from. Qed.

Lemma no_whitespace_left (s : string) :
  Py.all_chars (fun c => negb (Py.is_whitespace c))
    (Py.without_whitespace s) = true.
Proof.
  induction s as [|c s IH]; simpl; [reflexivity|].
  destruct (Py.is_whitespace c) eqn:E; simpl; [exact IH | now rewrite E].
Qed.

End StringFacts.

(** ** The credential file *)

(** The text [load_private_key] checks is the file without its
    whitespace, with the prefix put in front when it is not there. *)
Lemma normalize_spec (contents : string) :
  let secret := Py.without_whitespace contents in
  Credential.normalize contents
  = if Py.startswith secret "0x" then secret else "0x" +:+ secret.
Proof.
  unfold Credential.normalize.
  rewrite join_split, without_whitespace_strip.
  now destruct (Py.startswith _ _).
Qed.

Lemma normalize_no_whitespace (contents : string) :
  Py.all_chars (fun c => negb (Py.is_whitespace c))
    (Credential.normalize contents) = true.
Proof.
  rewrite normalize_spec. cbv zeta.
  destruct (Py.startswith (Py.without_whitespace contents) "0x");
    [apply no_whitespace_left|].
  simpl. apply no_whitespace_left.
Qed.

Lemma normalize_prefixed (contents : string) :
  Py.startswith (Credential.normalize contents) "0x" = true.
Proof.
  rewrite normalize_spec. cbv zeta.
  destruct (Py.startswith (Py.without_whitespace contents) "0x") eqn:E;
    [exact E | unfold Py.startswith; simpl].
  now destruct (Py.without_whitespace contents).
Qed.

(** C5, as stated, fails: a file of 64 characters that are not hexadecimal
    digits is accepted. *)
Lemma load_private_key_accepts_non_hex :
  ~ (forall contents,
       is_ok (Credential.load_private_key (Some contents)) = true <->
       Credential.is_hex_secret (Credential.normalize contents) = true).
Proof.
  intros claim.
  destruct (claim Demo.sixty_four_z) as [accepted _].
  specialize (accepted eq_refl). vm_compute in accepted. discriminate.
Qed.

(** C5, amended: loading the credential removes all whitespace from the
    file contents and prepends the prefix when it is absent; it succeeds,
    returning the normalized text, iff that text has 66 characters (the
    prefix and 64 more), whatever those characters are; any other length is
    rejected with [InvalidPrivateKeyFormat], and a missing file with
    [MissingCredentialFile]. A secret of 64 hexadecimal digits is therefore
    accepted. *)
Theorem load_private_key_checks_length (contents : string) :
  let private_key := Credential.normalize contents in
  let secret := Py.without_whitespace contents in
  Credential.load_private_key None = Raise MissingCredentialFile /\
  private_key = (if Py.startswith secret "0x" then secret
                 else "0x" +:+ secret) /\
  Credential.load_private_key (Some contents)
  = (if (String.length private_key =? 66)%nat then Ok private_key
     else Raise (InvalidPrivateKeyFormat (String.length private_key))) /\
  (is_ok (Credential.load_private_key (Some contents)) = true <->
   String.length private_key = 66%nat) /\
  (Credential.is_hex_secret private_key = true ->
   Credential.load_private_key (Some contents) = Ok private_key).
Proof.
  cbv zeta. split; [reflexivity|]. split; [apply normalize_spec|].
  assert (E : Credential.load_private_key (Some contents)
    = (if (String.length (Credential.normalize contents) =? 66)%nat
       then Ok (Credential.normalize contents)
       else Raise (InvalidPrivateKeyFormat
                     (String.length (Credential.normalize contents))))).
  { unfold Credential.load_private_key, Py.len.
    now destruct (_ =? 66)%nat. }
  split; [exact E|]. split.
  - rewrite E. destruct (_ =? 66)%nat eqn:L; simpl.
    + apply Nat.eqb_eq in L. tauto.
    + apply Nat.eqb_neq in L. split; [discriminate | tauto].
  - intros Hhex. rewrite E.
    destruct (Credential.normalize contents) as [|a rest];
      [discriminate Hhex|].
    destruct a as [[] [] [] [] [] [] [] []]; try discriminate Hhex.
    destruct rest as [|b secret]; [discriminate Hhex|].
    destruct b as [[] [] [] [] [] [] [] []]; try discriminate Hhex.
    simpl in Hhex. apply andb_true_iff in Hhex as [L _]. simpl.
    apply Nat.eqb_eq in L. rewrite L. reflexivity.
Qed.

Lemma load_private_key_checks_length_witness :
  Credential.load_private_key
    (Some " 4c0883a69102937d6231471b5dbb6204fe5129617082792ae468d01a3f362318
")
  = Ok "0x4c0883a69102937d6231471b5dbb6204fe5129617082792ae468d01a3f362318".
Proof.
  apply (load_private_key_checks_length
    " 4c0883a69102937d6231471b5dbb6204fe5129617082792ae468d01a3f362318
").
  vm_compute. reflexivity.
Defined.

(** ** Running programs *)

Section ProgFacts.

Context {S A B C : Type}.

Lemma bind_ret (a : A) (k : A -> prog S B) (s : S) :
  bind (ret a) k s = k a s.
Proof. reflexivity. Qed.

Lemma bind_lift (r : result A) (k : A -> prog S B) (s : S) :
  bind (lift r) k s
  = match r with Ok a => k a s | Raise e => (s, Raise e) end.
Proof. now destruct r. Qed.

Lemma bind_modify (f : S -> S) (k : unit -> prog S B) (s : S) :
  bind (modify f) k s = k tt (f s).
Proof. reflexivity. Qed.

Lemma bind_bind (m : prog S A) (f : A -> prog S B) (g : B -> prog S C)
    (s : S) :
  bind (bind m f) g s = bind m (fun a => bind (f a) g) s.
Proof. unfold bind. now destruct (m s) as [s' [a|e]]. Qed.

End ProgFacts.

(** ** The distribution loop *)

Section LoopFacts.

Import Distribute DistributeSpec.

Context `{Clock} `{Web3} `{!Streams}.

Variables (test_mode : bool) (amount : amount_t).
Variables (sender_address sender_private_key : string).
Variables (amount_wei gas_price total_per_transaction : Z).

Local Abbreviation attempt :=
  (attempt test_mode amount sender_address sender_private_key amount_wei
     gas_price total_per_transaction).
Local Abbreviation iteration :=
  (iteration test_mode amount sender_address sender_private_key amount_wei
     gas_price total_per_transaction).
Local Abbreviation send_loop :=
  (send_loop test_mode amount sender_address sender_private_key amount_wei
     gas_price total_per_transaction).
Local Abbreviation run_outcomes :=
  (run_outcomes test_mode amount sender_address sender_private_key
     amount_wei gas_price total_per_transaction).
Local Abbreviation state_before :=
  (state_before test_mode amount sender_address sender_private_key
     amount_wei gas_price total_per_transaction).

(** Case analysis on the next call of a collaborator. *)
Local Ltac next_call :=
  match goal with
  | |- context [match ?x with _ => _ end] => destruct x eqn:?
  end.

Local Ltac run_attempt :=
  unfold Distribute.attempt, bind, lift, gets, modify, ret, sign, remote;
  simpl; repeat (next_call; simpl).

(** The [try] block, before it prints, touches neither the log, nor the
    console, nor the counter, nor the clock. *)
Lemma attempt_frame (i : nat) (r : json) (s : state) :
  let s1 := fst (attempt i r s) in
  log_file s1 = log_file s /\ console s1 = console s /\
  nonce s1 = nonce s /\ clock_readings s1 = clock_readings s.
Proof. run_attempt; auto. Qed.

(** It builds a transaction iff the address converts, with the current
    value of the counter. *)
Lemma attempt_built (i : nat) (r : json) (s : state) :
  built (fst (attempt i r s))
  = built s ++
    match to_checksum_address r with
    | Ok to =>
        [(i, {| tx_from := sender_address; tx_to := to;
                tx_value := amount_wei; tx_nonce := nonce s;
                tx_gas := GAS_LIMIT; tx_gasPrice := gas_price;
                tx_chainId := POLYGON_CHAIN_ID |})]
    | Raise _ => []
    end.
Proof. run_attempt; auto using app_nil_r. Qed.

(** A log message it returns is a completed outcome for its position and
    recipient. *)
Lemma attempt_ok (i : nat) (r : json) (s : state) (m : message) :
  snd (attempt i r s) = Ok m ->
  concerns i r m /\ is_completed m = true /\ is_outcome m = true /\
  is_ok (to_checksum_address r) = true.
Proof.
  run_attempt; intros E; inversion E; subst; simpl; auto.
Qed.

(** An address that does not convert ends the [try] block at once. *)
Lemma attempt_bad_address (i : nat) (r : json) (s : state) (e : exn) :
  to_checksum_address r = Raise e -> attempt i r s = (s, Raise e).
Proof. intros E. unfold Distribute.attempt, bind, lift. now rewrite E. Qed.

(** In test mode the block neither signs nor calls the node, and it
    returns a [WouldSend] if the address converts and the two sums
    format. *)
Lemma attempt_test_mode (i : nat) (r : json) (s : state) :
  test_mode = true ->
  calls (fst (attempt i r s)) = calls s /\
  node (fst (attempt i r s)) = node s /\
  snd (attempt i r s)
  = match to_checksum_address r with
    | Raise e => Raise e
    | Ok _ =>
        match from_wei gas_price gwei with
        | Raise e => Raise e
        | Ok price =>
            match from_wei total_per_transaction ether with
            | Raise e => Raise e
            | Ok cost => Ok (WouldSend i amount r price GAS_LIMIT cost)
            end
        end
    end.
Proof. intros ->. run_attempt; auto. Qed.

(** Every call the block makes signs, sends or waits. *)
Lemma attempt_calls (i : nat) (r : json) (s : state) :
  exists cs, calls (fst (attempt i r s)) = calls s ++ cs /\
             forallb is_transaction_call cs = true.
Proof.
  run_attempt;
    repeat rewrite <- app_assoc; simpl;
    first [ now (exists []; rewrite app_nil_r)
          | eexists; split; [reflexivity | reflexivity] ].
Qed.

(** An address that converts is one both streams take. *)
Lemma convertible_writable (r : json) :
  is_ok (to_checksum_address r) = true -> writable r = true.
Proof.
  intros C. unfold writable. now destruct (address_encodes r C) as [-> ->].
Qed.

Lemma concerns_recipient (i : nat) (r : json) (m : message) :
  concerns i r m -> recipient_of m = Some r.
Proof. destruct m; simpl; try tauto; now intros [_ ->]. Qed.

(** One iteration for a recipient both streams take: it returns, and it
    appends one outcome to the console and to the log; the counter moves
    iff the block returned. *)
Lemma iteration_fields (i : nat) (r : json) (s : state) :
  writable r = true ->
  let a := attempt i r s in
  let s' := fst (iteration i r s) in
  let m := outcome_of i r (snd a) in
  snd (iteration i r s) = Ok tt /\
  node s' = node (fst a) /\ calls s' = calls (fst a) /\
  built s' = built (fst a) /\
  console s' = console s ++ [m] /\
  log_file s'
  = match log_file s with
    | Some (name, lines) => Some (name, lines ++ [m])
    | None => None
    end /\
  nonce s' = (if is_ok (snd a) then nonce s + 1 else nonce s)%Z /\
  clock_readings s' = clock_readings s.
Proof.
  intros W. apply andb_true_iff in W as [W1 W2]. cbv zeta.
  destruct (attempt_frame i r s) as (Hl & Hc & Hn & Ht).
  pose proof (attempt_ok i r s) as Hm.
  unfold Distribute.iteration, try_except, bind, print, write, encodable.
  destruct (attempt i r s) as [s1 [m|e]]; simpl in *.
  - destruct (Hm m eq_refl) as (Cm & _).
    rewrite (concerns_recipient _ _ _ Cm), W1, W2.
    unfold modify, gets. simpl. rewrite Hl, Hc, Hn, Ht.
    repeat split; reflexivity.
  - rewrite W1, W2. unfold modify. simpl. rewrite Hl, Hc, Hn, Ht.
    repeat split; reflexivity.
Qed.

(** One iteration for a recipient a stream cannot take: its address does
    not convert, the handler raises, and nothing but the console, by the
    text of the failure, has changed. *)
Lemma iteration_stops (i : nat) (r : json) (s : state) :
  writable r = false ->
  let s' := fst (iteration i r s) in
  snd (iteration i r s) = Raise (External "UnicodeEncodeError") /\
  is_ok (to_checksum_address r) = false /\
  node s' = node s /\ clock_readings s' = clock_readings s /\
  log_file s' = log_file s /\ calls s' = calls s /\
  nonce s' = nonce s /\ built s' = built s /\
  exists extra,
    console s' = console s ++ extra /\ length extra <= 1 /\
    forallb is_failed extra = true.
Proof.
  intros W. cbv zeta.
  destruct (to_checksum_address r) as [to|e] eqn:C.
  { rewrite convertible_writable in W; [discriminate W | now rewrite C]. }
  unfold Distribute.iteration, try_except, bind.
  rewrite (attempt_bad_address i r s e C).
  unfold print, write, encodable. simpl.
  unfold writable in W.
  destruct (stdout_encodes r); simpl in W.
  - rewrite W. unfold modify. simpl.
    repeat split; try reflexivity. now exists [Failed i r e].
  - unfold raise. simpl. repeat split; try reflexivity.
    exists []. rewrite app_nil_r. simpl. repeat split. lia.
Qed.

Lemma iteration_returns (i : nat) (r : json) (s : state) :
  writable r = true ->
  iteration i r s = (fst (iteration i r s), Ok tt).
Proof.
  intros W. pose proof (iteration_fields i r s W) as [E _].
  rewrite <- E. now destruct (iteration i r s).
Qed.

Lemma send_loop_cons (i : nat) (r : json) (rest : list json) (s : state) :
  writable r = true ->
  send_loop i (r :: rest) s = send_loop (S i) rest (fst (iteration i r s)).
Proof.
  intros W. simpl. unfold bind at 1. now rewrite iteration_returns.
Qed.

Local Ltac split_writable W Wr :=
  simpl in W; apply andb_true_iff in W as [Wr W].

(** The loop runs to its end when both streams take every recipient. *)
Lemma send_loop_returns (i : nat) (recipients : list json) (s : state) :
  forallb writable recipients = true ->
  send_loop i recipients s = (fst (send_loop i recipients s), Ok tt).
Proof.
  revert i s. induction recipients as [|r rest IH]; intros i s W.
  - reflexivity.
  - split_writable W Wr. rewrite send_loop_cons by exact Wr. now apply IH.
Qed.

Lemma writable_firstn (k : nat) (recipients : list json) :
  forallb writable recipients = true ->
  forallb writable (firstn k recipients) = true.
Proof.
  revert k. induction recipients as [|r rest IH]; intros [|k] W;
    try reflexivity.
  split_writable W Wr. simpl. now rewrite Wr, IH.
Qed.

Lemma send_loop_app (i : nat) (l1 l2 : list json) (s : state) :
  forallb writable l1 = true ->
  send_loop i (l1 ++ l2) s
  = send_loop (i + length l1) l2 (fst (send_loop i l1 s)).
Proof.
  revert i s. induction l1 as [|r rest IH]; intros i s W.
  - simpl. now rewrite Nat.add_0_r.
  - split_writable W Wr.
    rewrite <- app_comm_cons, !send_loop_cons, IH by assumption. simpl.
    now rewrite Nat.add_succ_r.
Qed.

Lemma completed_cons (m : message) (ms : list message) :
  completed (m :: ms)
  = ((if is_completed m then 1 else 0) + completed ms)%Z.
Proof.
  unfold completed. simpl. destruct (is_completed m); simpl length; lia.
Qed.

Lemma outcome_completed (i : nat) (r : json) (s : state) :
  is_completed (outcome_of i r (snd (attempt i r s)))
  = is_ok (snd (attempt i r s)).
Proof.
  destruct (snd (attempt i r s)) as [m|e] eqn:E; simpl; [|reflexivity].
  now apply attempt_ok in E.
Qed.

Lemma outcome_concerns (i : nat) (r : json) (s : state) :
  let m := outcome_of i r (snd (attempt i r s)) in
  concerns i r m /\ is_outcome m = true.
Proof.
  cbv zeta. destruct (snd (attempt i r s)) as [m|e] eqn:E; simpl.
  - apply attempt_ok in E. tauto.
  - auto.
Qed.

(** What the loop leaves in the state, in terms of its outcomes. *)
Lemma send_loop_fields (recipients : list json) :
  forall (i : nat) (s : state),
  forallb writable recipients = true ->
  let s' := fst (send_loop i recipients s) in
  let ms := run_outcomes i recipients s in
  console s' = console s ++ ms /\
  log_file s'
  = match log_file s with
    | Some (name, lines) => Some (name, lines ++ ms)
    | None => None
    end /\
  nonce s' = (nonce s + completed ms)%Z /\
  clock_readings s' = clock_readings s.
Proof.
  induction recipients as [|r rest IH]; intros i s W; cbv zeta.
  - simpl. rewrite !app_nil_r. unfold completed. simpl.
    repeat split; [|lia].
    destruct (log_file s) as [[name lines]|]; now rewrite ?app_nil_r.
  - split_writable W Wr. rewrite send_loop_cons by exact Wr.
    destruct (IH (S i) (fst (iteration i r s)) W) as (Hc & Hl & Hn & Ht).
    destruct (iteration_fields i r s Wr)
      as (_ & _ & _ & _ & Ic & Il & In' & It).
    cbv zeta in *. simpl run_outcomes.
    rewrite Hc, Hl, Hn, Ht, Ic, Il, In', It, completed_cons,
      outcome_completed.
    repeat split.
    + now rewrite <- app_assoc.
    + destruct (log_file s) as [[name lines]|]; [|reflexivity].
      now rewrite <- app_assoc.
    + destruct (is_ok _); lia.
Qed.

Lemma run_outcomes_length (recipients : list json) :
  forall (i : nat) (s : state),
  length (run_outcomes i recipients s) = length recipients.
Proof.
  induction recipients as [|r rest IH]; intros i s; simpl;
    [reflexivity | now rewrite IH].
Qed.

Lemma run_outcomes_firstn (recipients : list json) :
  forall (k i : nat) (s : state),
  run_outcomes i (firstn k recipients) s
  = firstn k (run_outcomes i recipients s).
Proof.
  induction recipients as [|r rest IH]; intros [|k] i s; simpl;
    try reflexivity.
  now rewrite IH.
Qed.

(** The outcome at a position is the one of the [try] block run in the
    state the loop has reached there. *)
Lemma run_outcomes_lookup (recipients : list json) :
  forall (k i : nat) (s : state) (r : json),
  forallb writable recipients = true ->
  recipients !! k = Some r ->
  run_outcomes i recipients s !! k
  = Some (outcome_of (i + k) r
            (snd (attempt (i + k) r
                    (fst (send_loop i (firstn k recipients) s))))).
Proof.
  induction recipients as [|r0 rest IH]; intros [|k] i s r W E;
    try discriminate.
  - simpl in E. inversion E; subst. simpl. now rewrite Nat.add_0_r.
  - split_writable W Wr. simpl in E. simpl firstn.
    rewrite send_loop_cons by exact Wr.
    simpl. rewrite (IH k (S i) _ r W E). now rewrite Nat.add_succ_r.
Qed.

Lemma nonce_before (recipients : list json) (k i : nat) (s : state) :
  forallb writable recipients = true ->
  nonce (fst (send_loop i (firstn k recipients) s))
  = (nonce s + completed (firstn k (run_outcomes i recipients s)))%Z.
Proof.
  intros W.
  destruct (send_loop_fields (firstn k recipients) i s
              (writable_firstn k _ W)) as (_ & _ & E & _).
  cbv zeta in E. now rewrite E, run_outcomes_firstn.
Qed.

(** The transactions the loop builds: one for each recipient whose address
    converts, carrying the value the counter has when the loop reaches that
    recipient. *)
Lemma send_loop_built (recipients : list json) :
  forall (i : nat) (s : state),
  forallb writable recipients = true ->
  exists bs,
    built (fst (send_loop i recipients s)) = built s ++ bs /\
    NoDup (map fst bs) /\
    forall j t,
      In (j, t) bs <->
      exists k r to,
        recipients !! k = Some r /\ j = i + k /\
        to_checksum_address r = Ok to /\
        t = {| tx_from := sender_address; tx_to := to;
               tx_value := amount_wei;
               tx_nonce :=
                 (nonce s
                  + completed (firstn k (run_outcomes i recipients s)))%Z;
               tx_gas := GAS_LIMIT; tx_gasPrice := gas_price;
               tx_chainId := POLYGON_CHAIN_ID |}.
Proof.
  induction recipients as [|r rest IH]; intros i s W.
  - exists []. split; [simpl; now rewrite app_nil_r|].
    split; [constructor|].
    intros j t. split; [intros []|]. intros (k & r & to & E & _).
    destruct k; discriminate.
  - split_writable W Wr. rewrite send_loop_cons by exact Wr.
    destruct (IH (S i) (fst (iteration i r s)) W) as (bs & Hb & Hnd & Hin).
    destruct (iteration_fields i r s Wr)
      as (_ & _ & _ & Ib & _ & _ & In' & _).
    cbv zeta in *. rewrite Hb, Ib, attempt_built, <- app_assoc.
    eexists. split; [reflexivity|]. split.
    { destruct (to_checksum_address r) as [to|]; [|exact Hnd].
      cbn [app map fst]. constructor; [|exact Hnd].
      intros Hi. apply list_elem_of_In, in_map_iff in Hi
        as ([j t] & Ej & Hjt).
      simpl in Ej. subst j. apply Hin in Hjt as (k & _ & _ & _ & Ek & _).
      lia. }
    intros j t. rewrite in_app_iff, Hin. split.
    + intros [Hhead | (k & r' & to & E & -> & Hto & ->)].
      * destruct (to_checksum_address r) as [to|] eqn:Hto; [|destruct Hhead].
        destruct Hhead as [Hhead|[]]. inversion Hhead; subst.
        exists 0, r, to. simpl. rewrite Nat.add_0_r.
        unfold completed. simpl. rewrite Z.add_0_r. auto.
      * exists (S k), r', to. simpl firstn. simpl run_outcomes.
        rewrite completed_cons, outcome_completed, In', Nat.add_succ_r.
        repeat split; auto. f_equal. destruct (is_ok _); lia.
    + intros ([|k] & r' & to & E & -> & Hto & ->).
      * left. simpl in E. inversion E; subst. rewrite Hto. left.
        rewrite Nat.add_0_r. unfold completed. simpl. now rewrite Z.add_0_r.
      * right. exists k, r', to. simpl in E. simpl firstn.
        simpl run_outcomes.
        rewrite completed_cons, outcome_completed, In', Nat.add_succ_r.
        repeat split; auto. f_equal. destruct (is_ok _); lia.
Qed.

(** In test mode the loop neither signs nor calls the node. *)
Lemma send_loop_test_mode_calls (recipients : list json) :
  test_mode = true ->
  forall (i : nat) (s : state),
  forallb writable recipients = true ->
  calls (fst (send_loop i recipients s)) = calls s /\
  node (fst (send_loop i recipients s)) = node s.
Proof.
  intros T. induction recipients as [|r rest IH]; intros i s W.
  - auto.
  - split_writable W Wr. rewrite send_loop_cons by exact Wr.
    destruct (IH (S i) (fst (iteration i r s)) W) as [Hc Hn].
    destruct (iteration_fields i r s Wr) as (_ & In' & Ic & _).
    destruct (attempt_test_mode i r s T) as (Ac & An & _).
    cbv zeta in *. now rewrite Hc, Hn, In', Ic, Ac, An.
Qed.

Lemma filter_outcomes_app (l ms : list message) :
  forallb is_outcome ms = true ->
  List.filter is_outcome (l ++ ms) = List.filter is_outcome l ++ ms.
Proof.
  intros A. rewrite List.filter_app. f_equal.
  induction ms as [|m ms IH]; [reflexivity|]. simpl in *.
  apply andb_true_iff in A as [-> A]. now rewrite IH.
Qed.

Lemma run_outcomes_are_outcomes (recipients : list json) :
  forall (i : nat) (s : state),
  forallb is_outcome (run_outcomes i recipients s) = true.
Proof.
  induction recipients as [|r rest IH]; intros i s; simpl; [reflexivity|].
  rewrite IH, andb_true_r. apply outcome_concerns.
Qed.

Lemma completed_all (ms : list message) :
  forallb is_completed ms = true -> completed ms = Z.of_nat (length ms).
Proof.
  unfold completed. intros A. f_equal. f_equal.
  induction ms as [|m ms IH]; [reflexivity|]. simpl in *.
  apply andb_true_iff in A as [-> A]. now rewrite IH.
Qed.

Lemma convertible_cons (r : json) (rest : list json) :
  convertible (r :: rest)
  = ((if is_ok (to_checksum_address r) then 1 else 0)
     + convertible rest)%Z.
Proof.
  unfold convertible. simpl.
  destruct (is_ok (to_checksum_address r)); simpl length; lia.
Qed.

(** In test mode, once the two sums format, an iteration completes iff
    the address converts. *)
Lemma test_mode_completed (price cost : string) (recipients : list json) :
  test_mode = true ->
  from_wei gas_price gwei = Ok price ->
  from_wei total_per_transaction ether = Ok cost ->
  forall (i : nat) (s : state),
  completed (run_outcomes i recipients s) = convertible recipients.
Proof.
  intros T P C. induction recipients as [|r rest IH]; intros i s.
  - reflexivity.
  - simpl run_outcomes.
    rewrite completed_cons, convertible_cons, outcome_completed, IH.
    destruct (attempt_test_mode i r s T) as (_ & _ & ->).
    rewrite P, C. now destruct (to_checksum_address r).
Qed.

(** *** Where the loop stops *)

Lemma served_writable (recipients : list json) :
  forallb writable (served recipients) = true.
Proof.
  induction recipients as [|r rest IH]; [reflexivity|]. simpl.
  destruct (writable r) eqn:W; [|reflexivity]. simpl. now rewrite W.
Qed.

Lemma served_all (recipients : list json) :
  forallb writable recipients = true -> served recipients = recipients.
Proof.
  induction recipients as [|r rest IH]; intros W; [reflexivity|].
  split_writable W Wr. simpl. now rewrite Wr, IH.
Qed.

Lemma served_firstn (recipients : list json) :
  forall k, served (firstn k recipients) = firstn k (served recipients).
Proof.
  induction recipients as [|r rest IH]; intros [|k]; simpl;
    try reflexivity.
  destruct (writable r); [|reflexivity]. simpl. now rewrite IH.
Qed.

Lemma served_lookup (recipients : list json) :
  forall k r, served recipients !! k = Some r -> recipients !! k = Some r.
Proof.
  induction recipients as [|r0 rest IH]; intros k r E; [discriminate|].
  simpl in E. destruct (writable r0); [|discriminate].
  destruct k as [|k]; [exact E|]. simpl in *. now apply IH.
Qed.

Lemma served_length (recipients : list json) :
  length (served recipients) <= length recipients.
Proof.
  induction recipients as [|r rest IH]; simpl; [lia|].
  destruct (writable r); simpl; lia.
Qed.

Lemma served_prefix (recipients : list json) :
  served recipients = firstn (length (served recipients)) recipients.
Proof.
  induction recipients as [|r rest IH]; simpl; [reflexivity|].
  destruct (writable r); simpl; [now rewrite <- IH | reflexivity].
Qed.

(** The loop over any recipients ends in the state the loop over the
    recipients served ends in, but for the text of one failure that the
    console may hold; it returns iff every recipient was served. *)
Lemma send_loop_served (recipients : list json) :
  forall (i : nat) (s : state),
  let s1 := fst (send_loop i (served recipients) s) in
  let s' := fst (send_loop i recipients s) in
  snd (send_loop i recipients s)
  = (if forallb writable recipients then Ok tt
     else Raise (External "UnicodeEncodeError")) /\
  node s' = node s1 /\ clock_readings s' = clock_readings s1 /\
  log_file s' = log_file s1 /\ calls s' = calls s1 /\
  nonce s' = nonce s1 /\ built s' = built s1 /\
  exists extra,
    console s' = console s1 ++ extra /\ length extra <= 1 /\
    forallb is_failed extra = true /\
    (forallb writable recipients = true -> extra = []).
Proof.
  induction recipients as [|r rest IH]; intros i s; cbv zeta.
  - simpl. repeat split. exists []. rewrite app_nil_r. simpl.
    repeat split. lia.
  - simpl served. simpl forallb. destruct (writable r) eqn:Wr.
    + rewrite !send_loop_cons by exact Wr. apply IH.
    + destruct (iteration_stops i r s Wr)
        as (R & _ & Hn & Ht & Hl & Hc & Hk & Hb & extra & He & Hlen & Hf).
      cbv zeta in *. change (fst (send_loop i [] s)) with s.
      assert (E : send_loop i (r :: rest) s
                  = (fst (iteration i r s),
                     Raise (External "UnicodeEncodeError"))).
      { simpl. unfold bind at 1.
        destruct (iteration i r s) as [s1 [u|ex]]; simpl in R;
          [discriminate R | now inversion R]. }
      rewrite E. cbn [fst snd]. repeat split; try assumption.
      exists extra. repeat split; try assumption. discriminate.
Qed.

(** The counter the loop has when it reaches a position, or where it
    stopped before it. *)
Lemma state_before_nonce (recipients : list json) (s : state) (k : nat) :
  nonce (state_before recipients s k)
  = (nonce s
     + completed (firstn k (run_outcomes 1 (served recipients) s)))%Z.
Proof.
  unfold DistributeSpec.state_before.
  destruct (send_loop_served (firstn k recipients) 1 s)
    as (_ & _ & _ & _ & _ & Hn & _).
  cbv zeta in Hn. rewrite Hn, served_firstn.
  apply nonce_before, served_writable.
Qed.




(** C1, amended: the nonce of the transaction built for the recipient at
    position i equals the base nonce plus the number of earlier iterations
    that completed without error, and the counter is incremented after
    exactly those iterations; an iteration whose outcome is a per-item
    failure leaves it unchanged. When no earlier iteration failed the
    nonce is the base nonce plus i - 1. This holds also of a loop that a
    recipient no stream can take has stopped; when the streams take every
    recipient the loop returns, with one outcome per recipient and a
    transaction for every recipient whose address converts. *)
Theorem nonce_counts_completed_iterations
    (recipients : list json) (s : state)
    (name : string) (lines : list message) :
  log_file s = Some (name, lines) ->
  let s' := fst (send_loop 1 recipients s) in
  exists ms bs,
    log_file s' = Some (name, lines ++ ms) /\
    built s' = built s ++ bs /\
    nonce s' = (nonce s + completed ms)%Z /\
    (forall k,
       nonce (state_before recipients s k)
       = (nonce s + completed (firstn k ms))%Z) /\
    (forall i t,
       In (i, t) bs ->
       1 <= i <= length recipients /\
       tx_nonce t = (nonce s + completed (firstn (i - 1) ms))%Z /\
       (forallb is_completed (firstn (i - 1) ms) = true ->
        tx_nonce t = (nonce s + Z.of_nat (i - 1))%Z)) /\
    (forallb writable recipients = true ->
     send_loop 1 recipients s = (s', Ok tt) /\
     length ms = length recipients /\
     forall k r to,
       recipients !! k = Some r -> to_checksum_address r = Ok to ->
       exists t, In (S k, t) bs).
Proof.
  intros L. cbv zeta.
  destruct (send_loop_served recipients 1 s)
    as (R & _ & _ & Sl & _ & Sn & Sb & _).
  destruct (send_loop_fields (served recipients) 1 s (served_writable _))
    as (_ & Hl & Hn & _).
  destruct (send_loop_built (served recipients) 1 s (served_writable _))
    as (bs & Hb & _ & Hin).
  cbv zeta in *. rewrite L in Hl.
  exists (run_outcomes 1 (served recipients) s), bs.
  split; [now rewrite Sl|]. split; [now rewrite Sb|].
  split; [now rewrite Sn|].
  split; [intros k; apply state_before_nonce|]. split.
  - intros i t Hit. apply Hin in Hit as (k & r & to & E & -> & _ & ->).
    change (1 + k) with (S k). simpl tx_nonce.
    replace (S k - 1) with k by lia.
    apply lookup_lt_Some in E as Hk.
    pose proof (served_length recipients) as Hp.
    repeat split; try lia.
    intros A. rewrite (completed_all _ A), length_firstn, run_outcomes_length.
    f_equal. lia.
  - intros W. rewrite W in R. rewrite (served_all _ W) in *.
    split; [rewrite <- R; now destruct (send_loop 1 recipients s)|].
    split; [apply run_outcomes_length|].
    intros k r to E Hto. eexists. apply Hin. exists k, r, to.
    repeat split; auto.
Qed.

(** *** More on the loop *)

Import RunNotions.


(** X10: every transaction the loop builds is from the sender, of the
    amount, with the gas limit 21000, the gas price observed and the chain
    id 137, and goes to the checksummed address of the recipient at its
    position; no position has two. *)
Theorem built_transactions_are_uniform (recipients : list json) (s : state) :
  exists bs,
    built (fst (send_loop 1 recipients s)) = built s ++ bs /\
    NoDup (map fst bs) /\
    (forall i t,
       In (i, t) bs ->
       tx_from t = sender_address /\ tx_value t = amount_wei /\
       tx_gas t = 21000%Z /\ tx_gasPrice t = gas_price /\
       tx_chainId t = 137%Z /\
       exists r, recipients !! (i - 1) = Some r /\
                 to_checksum_address r = Ok (tx_to t)) /\
    (forall i t u, In (i, t) bs -> In (i, u) bs -> t = u).
Proof.
  destruct (send_loop_served recipients 1 s)
    as (_ & _ & _ & _ & _ & _ & Sb & _).
  destruct (send_loop_built (served recipients) 1 s (served_writable _))
    as (bs & Hb & Hnd & Hin).
  cbv zeta in Sb.
  exists bs. split; [now rewrite Sb|]. split; [exact Hnd|]. split.
  - intros i t Hit. apply Hin in Hit as (k & r & to & E & -> & Hto & ->).
    simpl. repeat split. exists r. rewrite Nat.sub_0_r.
    split; [now apply served_lookup | exact Hto].
  - intros i t u Ht Hu.
    apply Hin in Ht as (k & r & to & E & -> & Hto & ->).
    apply Hin in Hu as (k' & r' & to' & E' & Ek & Hto' & ->).
    assert (k' = k) by lia. subst k'.
    rewrite E in E'. inversion E'; subst r'.
    rewrite Hto in Hto'. now inversion Hto'.
Qed.

Lemma completed_app (a b : list message) :
  completed (a ++ b) = (completed a + completed b)%Z.
Proof.
  unfold completed. rewrite List.filter_app, length_app. lia.
Qed.

Lemma completed_nonneg (ms : list message) : (0 <= completed ms)%Z.
Proof. unfold completed. lia. Qed.

Lemma completed_none (ms : list message) :
  (forall i m, ms !! i = Some m -> is_completed m = false) ->
  completed ms = 0%Z.
Proof.
  induction ms as [|m ms IH]; intros A; [reflexivity|].
  rewrite completed_cons, (A 0 m eq_refl), IH; [reflexivity|].
  intros i x E. exact (A (S i) x E).
Qed.

(** X11: along the transactions the loop builds the nonce never goes
    down; it goes up past a recipient whose iteration completed, and a
    transaction built after iterations that all failed carries the nonce
    of the one before them again. *)
Theorem nonces_never_decrease
    (recipients : list json) (s : state)
    (name : string) (lines : list message) :
  log_file s = Some (name, lines) ->
  let s' := fst (send_loop 1 recipients s) in
  exists ms bs,
    log_file s' = Some (name, lines ++ ms) /\
    built s' = built s ++ bs /\
    forall i j t u,
      In (i, t) bs -> In (j, u) bs -> i < j ->
      (tx_nonce t <= tx_nonce u)%Z /\
      (forall m, ms !! (i - 1) = Some m -> is_completed m = true ->
                 (tx_nonce t < tx_nonce u)%Z) /\
      ((forall k m, i - 1 <= k < j - 1 -> ms !! k = Some m ->
                    is_completed m = false) ->
       tx_nonce u = tx_nonce t).
Proof.
  intros L. cbv zeta.
  destruct (send_loop_served recipients 1 s)
    as (_ & _ & _ & Sl & _ & _ & Sb & _).
  destruct (send_loop_fields (served recipients) 1 s (served_writable _))
    as (_ & Hl & _).
  cbv zeta in Sl, Sb, Hl. rewrite L in Hl.
  destruct (send_loop_built (served recipients) 1 s (served_writable _))
    as (bs & Hb & _ & Hin).
  exists (run_outcomes 1 (served recipients) s), bs.
  split; [now rewrite Sl|]. split; [now rewrite Sb|].
  intros i j t u Ht Hu Hij.
  apply Hin in Ht as (k & r & to & E & -> & Hto & ->).
  apply Hin in Hu as (k' & r' & to' & E' & -> & Hto' & ->).
  simpl tx_nonce. replace (1 + k - 1) with k by lia.
  replace (1 + k' - 1) with k' by lia.
  assert (Hk : k < k') by lia.
  set (ms := run_outcomes 1 (served recipients) s).
  assert (Sp : take k' ms = take k ms ++ take (k' - k) (drop k ms)).
  { rewrite take_take_drop. f_equal. lia. }
  rewrite Sp, completed_app.
  pose proof (completed_nonneg (take (k' - k) (drop k ms))) as P.
  split; [lia|]. split.
  - intros m Em Cm. rewrite (drop_S _ _ _ Em).
    destruct (k' - k) as [|d] eqn:D; [lia|].
    cbn [take firstn]. rewrite completed_cons, Cm.
    pose proof (completed_nonneg (take d (drop (S k) ms))). lia.
  - intros A. rewrite (completed_none (take (k' - k) (drop k ms))); [lia|].
    intros idx m Em. apply lookup_take_Some in Em as [Em Hidx].
    rewrite lookup_drop in Em. apply (A (k + idx) m); [lia | exact Em].
Qed.

Lemma count_app {A} (p : A -> bool) (a b : list A) :
  count p (a ++ b) = count p a + count p b.
Proof. unfold count. now rewrite List.filter_app, length_app. Qed.

(** The calls of one iteration: none when the address does not convert or
    in test mode, else a signature, then at most one sending, then at most
    one wait, which a [Sent] outcome always has behind it. *)
Lemma attempt_call_counts (i : nat) (r : json) (s : state) :
  exists cs,
    calls (fst (attempt i r s)) = calls s ++ cs /\
    forallb is_transaction_call cs = true /\
    count is_sign cs
    = (if test_mode then 0
       else if is_ok (to_checksum_address r) then 1 else 0) /\
    count is_wait cs <= count is_send cs /\
    count is_send cs <= count is_sign cs /\
    (if is_sent (outcome_of i r (snd (attempt i r s))) then 1 else 0)
    <= count is_wait cs.
Proof.
  run_attempt;
    repeat rewrite <- app_assoc;
    (first [ exists []; split; [now rewrite app_nil_r|]
           | eexists; split; [reflexivity|] ]);
    unfold count; simpl; repeat split; lia.
Qed.

(** The calls of a loop over recipients both streams take. *)
Lemma send_loop_call_counts (recipients : list json) :
  forall (i : nat) (s : state),
  forallb writable recipients = true ->
  exists cs,
    calls (fst (send_loop i recipients s)) = calls s ++ cs /\
    forallb is_transaction_call cs = true /\
    Z.of_nat (count is_sign cs)
    = (if test_mode then 0%Z else convertible recipients) /\
    count is_wait cs <= count is_send cs /\
    count is_send cs <= count is_sign cs /\
    count is_sent (run_outcomes i recipients s) <= count is_wait cs.
Proof.
  induction recipients as [|r rest IH]; intros i s0 W.
  - exists []. simpl. rewrite app_nil_r. unfold convertible, count. simpl.
    repeat split; try lia. now destruct test_mode.
  - split_writable W Wr. rewrite send_loop_cons by exact Wr.
    destruct (IH (S i) (fst (iteration i r s0)) W)
      as (cs & Hc & Ha & Hs & Hw & Hd & Ho).
    destruct (iteration_fields i r s0 Wr) as (_ & _ & Ic & _).
    destruct (attempt_call_counts i r s0)
      as (cs0 & Hc0 & Ha0 & Hs0 & Hw0 & Hd0 & Ho0).
    cbv zeta in Ic. rewrite Ic, Hc0 in Hc.
    exists (cs0 ++ cs). rewrite Hc, <- app_assoc.
    split; [reflexivity|]. rewrite forallb_app, Ha0, Ha.
    split; [reflexivity|]. rewrite !count_app.
    split.
    { rewrite Nat2Z.inj_add, Hs, Hs0, convertible_cons.
      destruct test_mode; [reflexivity|].
      destruct (is_ok (to_checksum_address r)); lia. }
    split; [lia|]. split; [lia|].
    simpl run_outcomes. unfold count at 1. simpl List.filter.
    destruct (is_sent (outcome_of i r (snd (attempt i r s0))));
      simpl length; fold (count is_sent
        (run_outcomes (S i) rest (fst (iteration i r s0)))); lia.
Qed.

(** X12: the loop signs once for every recipient it gets to whose address
    converts, and not at all in test mode: once for every recipient whose
    address converts when both streams take every recipient. It never
    sends more often than it signs, never waits more often than it sends,
    and reports no more recipients as sent than it has waited for
    receipts. *)
Theorem loop_call_counts
    (recipients : list json) (s : state)
    (name : string) (lines : list message) :
  log_file s = Some (name, lines) ->
  let s' := fst (send_loop 1 recipients s) in
  exists ms cs,
    log_file s' = Some (name, lines ++ ms) /\
    calls s' = calls s ++ cs /\
    forallb is_transaction_call cs = true /\
    Z.of_nat (count is_sign cs)
    = (if test_mode then 0%Z
       else convertible (firstn (length ms) recipients)) /\
    (forallb writable recipients = true ->
     Z.of_nat (count is_sign cs)
     = (if test_mode then 0%Z else convertible recipients)) /\
    count is_wait cs <= count is_send cs /\
    count is_send cs <= count is_sign cs /\
    count is_sent ms <= count is_wait cs.
Proof.
  intros L. cbv zeta.
  destruct (send_loop_served recipients 1 s)
    as (_ & _ & _ & Sl & Sc & _).
  destruct (send_loop_call_counts (served recipients) 1 s
              (served_writable _))
    as (cs & Hc & Ha & Hs & Hw & Hd & Ho).
  destruct (send_loop_fields (served recipients) 1 s (served_writable _))
    as (_ & Hl & _).
  cbv zeta in Sl, Sc, Hl. rewrite L in Hl.
  exists (run_outcomes 1 (served recipients) s), cs.
  split; [now rewrite Sl|]. split; [now rewrite Sc|].
  split; [exact Ha|]. split.
  { now rewrite run_outcomes_length, <- served_prefix. }
  split; [intros W; now rewrite (served_all _ W) in Hs|].
  auto.
Qed.

(** With collaborators that do not fail the [try] block returns a [Sent]
    message for an address that converts. *)
Lemma attempt_real_mode (i : nat) (r : json) (s : state) :
  test_mode = false ->
  is_ok (to_checksum_address r) = true ->
  (forall t, is_ok (sign_transaction t sender_private_key) = true) ->
  (forall c raw, is_ok (snd (send_raw_transaction c raw)) = true) ->
  (forall c h, is_ok (snd (wait_for_transaction_receipt c h)) = true) ->
  (forall rc, is_ok (transactionHash_hex rc) = true) ->
  is_sent (outcome_of i r (snd (attempt i r s))) = true.
Proof.
  intros T Hr Hsign Hsend Hwait Hhash.
  unfold Distribute.attempt, bind, lift, gets, modify, ret, sign, remote.
  rewrite T. simpl.
  destruct (to_checksum_address r) as [to|]; [|discriminate Hr]. simpl.
  match goal with
  | |- context [sign_transaction ?t ?k] =>
      pose proof (Hsign t) as S1; destruct (sign_transaction t k) as [sg|];
      [|discriminate S1]
  end. simpl.
  match goal with
  | |- context [send_raw_transaction ?c ?raw] =>
      pose proof (Hsend c raw) as S2;
      destruct (snd (send_raw_transaction c raw)) as [h|];
      [|discriminate S2]
  end. simpl.
  match goal with
  | |- context [wait_for_transaction_receipt ?c ?h] =>
      pose proof (Hwait c h) as S3;
      destruct (snd (wait_for_transaction_receipt c h)) as [rc|];
      [|discriminate S3]
  end. simpl.
  pose proof (Hhash rc) as S4.
  destruct (transactionHash_hex rc); [reflexivity | discriminate S4].
Qed.

(** X13: when every address converts and neither the signing nor the node
    fails, every recipient is reported as sent, the transaction for the
    recipient at position i carries the base nonce plus i - 1, and the
    counter ends at the base nonce plus the number of recipients. *)
Theorem faultless_run_sends_to_all
    (recipients : list json) (s : state)
    (name : string) (lines : list message) :
  test_mode = false ->
  (forall r, In r recipients -> is_ok (to_checksum_address r) = true) ->
  (forall t, is_ok (sign_transaction t sender_private_key) = true) ->
  (forall c raw, is_ok (snd (send_raw_transaction c raw)) = true) ->
  (forall c h, is_ok (snd (wait_for_transaction_receipt c h)) = true) ->
  (forall rc, is_ok (transactionHash_hex rc) = true) ->
  log_file s = Some (name, lines) ->
  let s' := fst (send_loop 1 recipients s) in
  exists ms bs,
    log_file s' = Some (name, lines ++ ms) /\
    length ms = length recipients /\
    forallb is_sent ms = true /\
    nonce s' = (nonce s + Z.of_nat (length recipients))%Z /\
    built s' = built s ++ bs /\
    (forall k r, recipients !! k = Some r -> exists t, In (S k, t) bs) /\
    (forall i t, In (i, t) bs ->
                 tx_nonce t = (nonce s + (Z.of_nat i - 1))%Z).
Proof.
  intros T Hr Hsign Hsend Hwait Hhash L. cbv zeta.
  assert (W : forallb writable recipients = true).
  { apply forallb_forall. intros r Hin. apply convertible_writable.
    now apply Hr. }
  assert (Sent_all : forall l i s0,
            (forall r, In r l -> is_ok (to_checksum_address r) = true) ->
            forallb is_sent (run_outcomes i l s0) = true).
  { induction l as [|r l IH]; intros i s0 Hl; [reflexivity|].
    simpl. rewrite attempt_real_mode; auto; [|apply Hl; now left].
    apply IH. intros r' Hr'. apply Hl. now right. }
  assert (Completed : forall ms, forallb is_sent ms = true ->
                                 forallb is_completed ms = true).
  { induction ms as [|m ms IH]; [reflexivity|]. simpl.
    intros A. apply andb_true_iff in A as [Hm A]. rewrite (IH A).
    now destruct m. }
  destruct (send_loop_fields recipients 1 s W) as (_ & Hl & Hn & _).
  cbv zeta in Hl, Hn. rewrite L in Hl.
  destruct (send_loop_built recipients 1 s W) as (bs & Hb & _ & Hin).
  set (ms := run_outcomes 1 recipients s) in *.
  assert (Hms : forallb is_sent ms = true) by now apply Sent_all.
  exists ms, bs. split; [exact Hl|].
  split; [apply run_outcomes_length|]. split; [exact Hms|].
  split.
  { rewrite Hn, (completed_all _ (Completed _ Hms)).
    unfold ms. now rewrite run_outcomes_length. }
  split; [exact Hb|]. split.
  - intros k r E.
    assert (Hin_r : In r recipients)
      by (apply list_elem_of_In; eapply list_elem_of_lookup_2; eauto).
    specialize (Hr r Hin_r).
    destruct (to_checksum_address r) as [to|] eqn:Hto; [|discriminate Hr].
    eexists. apply Hin. exists k, r, to. repeat split; eauto.
  - intros i t Hit. apply Hin in Hit as (k & r & to & E & -> & _ & ->).
    simpl tx_nonce. fold ms.
    assert (A : forallb is_completed (take k ms) = true).
    { apply Completed. apply forallb_forall. intros m Hm.
      apply (proj1 (forallb_forall _ _) Hms).
      apply list_elem_of_In in Hm. apply list_elem_of_In.
      apply elem_of_take in Hm as (idx & Hidx & _).
      eapply list_elem_of_lookup_2; eauto. }
    rewrite (completed_all _ A), length_take_le.
    + f_equal. lia.
    + unfold ms. rewrite run_outcomes_length.
      apply lookup_lt_Some in E. lia.
Qed.

End LoopFacts.

(** ** The preflight *)

Section Preflight.

Import Distribute DistributeSpec.

Context `{Clock} `{Web3} `{!Streams}.

Variables (e : env) (test_mode : bool) (amount : amount_t) (s : state).

(** A run that gets as far as the comparison of the balance with the sum
    needed: the credential loads, a wallet file is found and read, the
    node answers, the sums format. *)
Variables (sender_private_key first : string) (others : list string).
Variables (wallets_data : json) (recipients : list json).
Variables (amount_wei count balance price : Z) (sender_address : string).
Variables (balance_text price_text gas_text each_text total_text : string).

Let latest_file : string := max_by (getctime e) first others.
Let node1 : chain := fst (get_transaction_count (node s) sender_address).
Let node2 : chain := fst (get_balance node1 sender_address).
Let node3 : chain := fst (gas_price node2).
Let total_gas : Z := (price * GAS_LIMIT)%Z.
Let total_per_transaction : Z := (amount_wei + total_gas)%Z.
Let total_needed : Z :=
  (total_per_transaction * Z.of_nat (length recipients))%Z.

Hypothesis credential_loads :
  Credential.load_private_key (private_key_file e) = Ok sender_private_key.
Hypothesis wallet_file_found : glob_wallet_files e = first :: others.
Hypothesis wallet_file_read : json_load e latest_file = Ok wallets_data.
Hypothesis recipients_read : public_keys wallets_data = Ok recipients.
Hypothesis amount_converts : to_wei amount = Ok amount_wei.
Hypothesis sender_resolves :
  from_key_address sender_private_key = Ok sender_address.
Hypothesis count_answered :
  snd (get_transaction_count (node s) sender_address) = Ok count.
Hypothesis balance_answered :
  snd (get_balance node1 sender_address) = Ok balance.
Hypothesis price_answered : snd (gas_price node2) = Ok price.
Hypothesis balance_formats : from_wei balance ether = Ok balance_text.
Hypothesis price_formats : from_wei price gwei = Ok price_text.
Hypothesis gas_formats : from_wei total_gas ether = Ok gas_text.
Hypothesis each_formats : from_wei total_per_transaction ether = Ok each_text.
Hypothesis total_formats : from_wei total_needed ether = Ok total_text.

(** For the runs that go through the loop: both streams can take the text
    of every recipient. *)
Hypothesis recipients_writable : forallb writable recipients = true.

(** Keep the state a record of the fields of the initial state. *)
Local Ltac tidy :=
  cbn [node clock_readings console log_file calls nonce built
       set_nonce set_node add_call fst snd].

Lemma bind_remote {A B} (c : call) (f : chain -> chain * result A)
    (k : A -> prog state B) (s0 : state) :
  bind (remote c f) k s0
  = match snd (f (node s0)) with
    | Ok a => k a (set_node (fst (f (node s0))) (add_call c s0))
    | Raise ex => (set_node (fst (f (node s0))) (add_call c s0), Raise ex)
    end.
Proof. unfold bind, remote. simpl. now destruct (snd (f (node s0))). Qed.

(** Up to the comparison the run prints its summary, asks the node three
    questions and binds the counter; then it either raises or opens the
    log file and enters the loop. *)
Lemma distribute_pol_preflight :
  let checked :=
    {| node := node3; clock_readings := clock_readings s;
       console :=
         console s ++
         [Line "Using latest wallet file" latest_file;
          Line "Sender balance" balance_text;
          Text "Amount per transaction:";
          AmountLine "POL to send" amount;
          Line "Gas price" price_text;
          IntLine "Gas limit" GAS_LIMIT;
          Line "Gas cost" gas_text;
          Line "Total per transaction" each_text;
          Line "Total needed for all transactions" total_text];
       log_file := log_file s;
       calls :=
         calls s ++
         [GetTransactionCount sender_address; GetBalance sender_address;
          GetGasPrice];
       nonce := count; built := built s |} in
  distribute_pol e test_mode amount s
  = if (balance <? total_needed)%Z
    then (checked, Raise (InsufficientBalance total_needed balance))
    else
      create_log_file e test_mode
        (bind
           (log_transaction_details sender_address balance price total_gas
              total_per_transaction total_needed test_mode latest_file
              amount)
           (fun _ =>
              send_loop test_mode amount sender_address sender_private_key
                amount_wei price total_per_transaction 1 recipients))
        checked.
Proof.
  subst latest_file node1 node2 node3 total_gas total_per_transaction
    total_needed.
  cbv zeta. unfold distribute_pol, get_latest_wallets_file, print.
  cbn [encodable recipient_of].
  rewrite bind_lift, credential_loads, wallet_file_found.
  rewrite bind_bind, bind_modify, bind_ret. tidy.
  rewrite bind_lift, wallet_file_read.
  rewrite bind_lift, recipients_read.
  rewrite bind_lift, amount_converts.
  rewrite bind_lift, sender_resolves.
  rewrite bind_remote. tidy. rewrite count_answered.
  rewrite bind_modify. tidy.
  rewrite bind_remote. tidy. rewrite balance_answered.
  rewrite bind_remote. tidy. rewrite price_answered.
  rewrite bind_lift, balance_formats.
  do 3 (rewrite bind_modify; tidy).
  rewrite bind_lift, price_formats.
  do 2 (rewrite bind_modify; tidy).
  rewrite bind_lift, gas_formats.
  rewrite bind_modify. tidy.
  rewrite bind_lift, each_formats.
  rewrite bind_modify. tidy.
  rewrite bind_lift, total_formats.
  rewrite bind_modify. tidy.
  repeat rewrite <- app_assoc. cbn [app].
  destruct (balance <? _)%Z.
  - reflexivity.
  - reflexivity.
Qed.


Lemma bind_read_clock {B} (k : datetime -> prog state B) (s0 : state) :
  bind (read_clock e) k s0
  = k (now e (clock_readings s0))
      {| node := node s0; clock_readings := S (clock_readings s0);
         console := console s0; log_file := log_file s0;
         calls := calls s0; nonce := nonce s0; built := built s0 |}.
Proof. reflexivity. Qed.

(** With a balance that suffices, and recipients both streams take, the
    run opens the log file, writes its header, and goes through the loop
    from a state [s0] in which nothing has been built, signed or sent; it
    returns, and the log file then holds one outcome per recipient. *)
Lemma distribute_pol_completes :
  (total_needed <= balance)%Z ->
  exists s0 s' name header,
    log_file s0 = Some (name, header) /\
    List.filter is_outcome header = [] /\
    nonce s0 = count /\ built s0 = built s /\
    List.filter is_transaction_call (calls s0)
    = List.filter is_transaction_call (calls s) /\
    distribute_pol e test_mode amount s = (s', Ok tt) /\
    log_file s'
    = log_file
        (fst (send_loop test_mode amount sender_address sender_private_key
                amount_wei price total_per_transaction 1 recipients s0)) /\
    nonce s'
    = nonce
        (fst (send_loop test_mode amount sender_address sender_private_key
                amount_wei price total_per_transaction 1 recipients s0)) /\
    calls s'
    = calls
        (fst (send_loop test_mode amount sender_address sender_private_key
                amount_wei price total_per_transaction 1 recipients s0)) /\
    length (outcomes s') = length recipients.
Proof.
  intros Hge. pose proof distribute_pol_preflight as E. cbv zeta in E.
  rewrite E. clear E.
  apply Z.ltb_ge in Hge. rewrite Hge.
  unfold create_log_file, log_transaction_details, open_log, write, print.
  cbn [encodable recipient_of].
  rewrite bind_read_clock. tidy.
  rewrite bind_modify. tidy.
  rewrite bind_read_clock. tidy.
  rewrite bind_modify. tidy.
  rewrite bind_bind.
  rewrite bind_bind, bind_modify. tidy.
  rewrite bind_bind, bind_lift, balance_formats.
  do 2 (rewrite bind_bind, bind_modify; tidy).
  rewrite bind_bind, bind_lift, price_formats.
  do 2 (rewrite bind_bind, bind_modify; tidy).
  rewrite bind_bind, bind_lift, gas_formats.
  rewrite bind_bind, bind_modify. tidy.
  rewrite bind_bind, bind_lift, each_formats.
  rewrite bind_bind, bind_modify. tidy.
  rewrite bind_bind, bind_lift, total_formats.
  do 2 (rewrite bind_bind, bind_modify; tidy).
  rewrite bind_modify. tidy. cbn [app].
  match goal with
  | |- context [bind _ _ ?s0] => set (start := s0)
  end.
  unfold bind.
  rewrite (send_loop_returns _ _ _ _ _ _ _ 1 recipients start
             recipients_writable).
  destruct (send_loop_fields test_mode amount sender_address
              sender_private_key amount_wei price total_per_transaction
              recipients 1 start recipients_writable) as (_ & Hl & _).
  cbv zeta in Hl. unfold modify.
  eexists start, _, _, _.
  split; [reflexivity|]. split; [reflexivity|].
  split; [reflexivity|]. split; [reflexivity|]. split.
  { subst start. tidy. rewrite List.filter_app. cbn. apply app_nil_r. }
  split; [reflexivity|]. split; [reflexivity|]. split; [reflexivity|].
  split; [reflexivity|].
  unfold outcomes, logged. tidy. rewrite Hl. subst start. tidy.
  rewrite filter_outcomes_app by apply run_outcomes_are_outcomes.
  cbn [List.filter is_outcome app]. apply run_outcomes_length.
Qed.



End Preflight.

(** ** Runs that do not get through *)

Section AllOrNothing.

Import Distribute DistributeSpec RunNotions.

Context `{Clock} `{Web3} `{!Streams}.

Lemma untouched_refl (s : state) : untouched s s.
Proof. now split. Qed.

Lemma untouched_trans (s1 s2 s3 : state) :
  untouched s1 s2 -> untouched s2 s3 -> untouched s1 s3.
Proof. intros [A B] [C D]. split; congruence. Qed.

Lemma quiet_ret {A} (a : A) : quiet (ret a).
Proof. intros s s' r E. inversion E. apply untouched_refl. Qed.

Lemma quiet_raise {A} (ex : exn) : quiet (@raise state A ex).
Proof. intros s s' r E. inversion E. apply untouched_refl. Qed.

Lemma quiet_lift {A} (r : result A) : quiet (lift r).
Proof. intros s s' r' E. inversion E. apply untouched_refl. Qed.

Lemma quiet_print (m : message) : quiet (print m).
Proof.
  intros s s' r E. unfold print in E.
  destruct (encodable stdout_encodes m); inversion E; now split.
Qed.

Lemma quiet_write (m : message) : quiet (write m).
Proof.
  intros s s' r E. unfold write in E.
  destruct (encodable log_encodes m); inversion E; now split.
Qed.

Lemma quiet_open_log (name : string) : quiet (open_log name).
Proof. intros s s' r E. inversion E. now split. Qed.

Lemma quiet_read_clock (e : env) : quiet (read_clock e).
Proof. intros s s' r E. inversion E. now split. Qed.

Lemma quiet_set_nonce (n : Z) : quiet (modify (set_nonce n)).
Proof. intros s s' r E. inversion E. now split. Qed.

Lemma quiet_remote {A} (c : call) (f : chain -> chain * result A) :
  is_transaction_call c = false -> quiet (remote c f).
Proof.
  intros C s s' r E. unfold remote in E. inversion E. split; [|reflexivity].
  simpl. rewrite List.filter_app. simpl. rewrite C. apply app_nil_r.
Qed.

Lemma quiet_bind {A B} (m : prog state A) (k : A -> prog state B) :
  quiet m -> (forall a, quiet (k a)) -> quiet (bind m k).
Proof.
  intros Qm Qk s s' r E. unfold bind in E.
  destruct (m s) as [s1 [a|ex]] eqn:M.
  - eapply untouched_trans; [exact (Qm _ _ _ M) | exact (Qk _ _ _ _ E)].
  - inversion E; subst. exact (Qm _ _ _ M).
Qed.

Lemma clean_bind {A B} (m : prog state A) (k : A -> prog state B) :
  quiet m -> (forall a, aborts_clean (k a)) -> aborts_clean (bind m k).
Proof.
  intros Qm Ck s s' ex E. unfold bind in E.
  destruct (m s) as [s1 [a|ex1]] eqn:M.
  - eapply untouched_trans; [exact (Qm _ _ _ M) | exact (Ck _ _ _ _ E)].
  - inversion E; subst. exact (Qm _ _ _ M).
Qed.

Lemma clean_bind_lift {A B} (r : result A) (k : A -> prog state B) :
  (forall a, r = Ok a -> aborts_clean (k a)) ->
  aborts_clean (bind (lift r) k).
Proof.
  intros Ck s s' ex E. rewrite bind_lift in E. destruct r as [a|ex1].
  - exact (Ck a eq_refl _ _ _ E).
  - inversion E. apply untouched_refl.
Qed.

Local Ltac quietly :=
  repeat first
    [ apply quiet_bind; [|intros ?]
    | apply quiet_lift | apply quiet_print | apply quiet_write
    | apply quiet_ret | apply quiet_raise | apply quiet_open_log
    | apply quiet_read_clock | apply quiet_set_nonce
    | apply quiet_remote; reflexivity ].

Lemma quiet_get_latest_wallets_file (e : env) :
  quiet (get_latest_wallets_file e).
Proof.
  unfold get_latest_wallets_file.
  destruct (glob_wallet_files e); quietly.
Qed.

Lemma quiet_log_transaction_details
    (sender_address : string)
    (sender_balance gas_price total_gas total_per_transaction
       total_needed : Z)
    (test_mode : bool) (latest_file : string) (amount : amount_t) :
  quiet (log_transaction_details sender_address sender_balance gas_price
           total_gas total_per_transaction total_needed test_mode
           latest_file amount).
Proof. unfold log_transaction_details. quietly. Qed.

(** Once the log file is open a run over recipients both streams take
    can only stop before the loop. *)
Lemma clean_create_log_file
    (e : env) (test_mode : bool) (amount : amount_t)
    (sender_address sender_private_key latest_file : string)
    (sender_balance amount_wei gas_price total_gas
       total_per_transaction total_needed : Z)
    (recipients : list json) :
  forallb writable recipients = true ->
  aborts_clean
    (create_log_file e test_mode
       (bind
          (log_transaction_details sender_address sender_balance gas_price
             total_gas total_per_transaction total_needed test_mode
             latest_file amount)
          (fun _ =>
             send_loop test_mode amount sender_address sender_private_key
               amount_wei gas_price total_per_transaction 1 recipients))).
Proof.
  intros W. unfold create_log_file.
  apply clean_bind; [solve [quietly] | intros t].
  apply clean_bind; [solve [quietly] | intros _].
  apply clean_bind; [solve [quietly] | intros t'].
  apply clean_bind; [solve [quietly] | intros _].
  intros s s' ex E. rewrite bind_bind in E.
  revert s s' ex E. apply clean_bind.
  - apply quiet_log_transaction_details.
  - intros _ s s' ex E. exfalso.
    unfold bind in E.
    rewrite (send_loop_returns test_mode amount sender_address
               sender_private_key amount_wei gas_price
               total_per_transaction 1 recipients s W) in E.
    discriminate E.
Qed.

(** X16: on a machine whose wallet files hold only recipients whose text
    the console and the log file can take, a run of [distribute_pol] that
    raises, for whatever reason, has built, signed and sent nothing: it
    stops before the first recipient or goes through all of them. *)
Theorem failed_run_sent_nothing
    (e : env) (test_mode : bool) (amount : amount_t)
    (s s' : state) (ex : exn) :
  (forall name wallets_data recipients,
     json_load e name = Ok wallets_data ->
     public_keys wallets_data = Ok recipients ->
     forallb writable recipients = true) ->
  distribute_pol e test_mode amount s = (s', Raise ex) ->
  List.filter is_transaction_call (calls s')
  = List.filter is_transaction_call (calls s) /\
  built s' = built s.
Proof.
  intros W. revert s s' ex.
  change (aborts_clean (distribute_pol e test_mode amount)).
  unfold distribute_pol.
  apply clean_bind; [solve [quietly] | intros sender_private_key].
  apply clean_bind; [apply quiet_get_latest_wallets_file | intros latest].
  apply clean_bind_lift. intros wallets_data Hload.
  apply clean_bind_lift. intros recipients Hkeys.
  do 2 (apply clean_bind; [solve [quietly] | intros ?]).
  do 4 (apply clean_bind; [solve [quietly] | intros ?]).
  do 13 (apply clean_bind; [solve [quietly] | intros ?]).
  apply clean_bind.
  - destruct (_ <? _)%Z; solve [quietly].
  - intros _. apply clean_create_log_file. exact (W _ _ _ Hload Hkeys).
Qed.

(** X17: with a credential that does not load the run stops at once with
    the error of the credential; with one that loads and no wallet file it
    stops at once with NoRecipientFile. In both cases the state is as it
    was: nothing was printed and the node was not asked anything. *)
Theorem unusable_inputs_stop_the_run
    (e : env) (test_mode : bool) (amount : amount_t) (s : state) :
  match Credential.load_private_key (private_key_file e) with
  | Raise ex => distribute_pol e test_mode amount s = (s, Raise ex)
  | Ok _ =>
      glob_wallet_files e = [] ->
      distribute_pol e test_mode amount s = (s, Raise NoRecipientFile)
  end.
Proof.
  unfold distribute_pol. rewrite bind_lift.
  destruct (Credential.load_private_key (private_key_file e));
    [|reflexivity].
  intros G. unfold get_latest_wallets_file. rewrite G. reflexivity.
Qed.

End AllOrNothing.

(** ** Hexadecimal text and file names *)

Section NameFacts.

Import CreateWallet CreateWalletSpec.

Lemma unhex_hex_digits (bs : list byte) :
  unhex_digits (hex_digits bs) = Some bs.
Proof.
  induction bs as [|b bs IH]; [reflexivity|].
  cbn [hex_digits unhex_digits]. rewrite IH.
  destruct b; reflexivity.
Qed.

(** The hexadecimal text of a key stands for that key. *)
Lemma unhex_hex (bs : list byte) : unhex (hex bs) = Some bs.
Proof. apply unhex_hex_digits. Qed.

Lemma str_int_inj (n m : Z) : str_int n = str_int m -> n = m.
Proof.
  unfold str_int. intros E. apply DecimalZ.to_int_inj.
  pose proof (NilEmpty.isi (Z.to_int n)) as En.
  pose proof (NilEmpty.isi (Z.to_int m)) as Em.
  rewrite E in En. congruence.
Qed.

Lemma all_chars_app (p : ascii -> bool) (a b : string) :
  Py.all_chars p (a +:+ b) = Py.all_chars p a && Py.all_chars p b.
Proof.
  induction a as [|c a IH]; simpl; [reflexivity|].
  now rewrite IH, andb_assoc.
Qed.

Lemma all_chars_rev (p : ascii -> bool) (a : string) :
  Py.all_chars p (Py.rev a) = Py.all_chars p a.
Proof.
  induction a as [|c a IH]; simpl; [reflexivity|].
  rewrite all_chars_app, IH. simpl. rewrite andb_true_r. apply andb_comm.
Qed.

Lemma str_int_no_underscore (n : Z) :
  Py.all_chars not_underscore (str_int n) = true.
Proof.
  unfold str_int.
  assert (U : forall d, Py.all_chars not_underscore
                          (NilEmpty.string_of_uint d) = true).
  { induction d; simpl; auto. }
  destruct (Z.to_int n); simpl; auto.
Qed.

(** Texts without underscore that are followed by one are equal when the
    whole texts are. *)
Lemma before_underscore (a b x y : string) :
  Py.all_chars not_underscore a = true ->
  Py.all_chars not_underscore b = true ->
  a +:+ String "_" x = b +:+ String "_" y -> a = b.
Proof.
  revert b. induction a as [|c a IH]; intros [|d b] Ha Hb E; simpl in *.
  - reflexivity.
  - inversion E; subst. discriminate Hb.
  - inversion E; subst. discriminate Ha.
  - inversion E; subst.
    apply andb_true_iff in Ha as [_ Ha]. apply andb_true_iff in Hb as [_ Hb].
    f_equal. eauto.
Qed.

Lemma str_rev_inj (a b : string) : Py.rev a = Py.rev b -> a = b.
Proof. intros E. rewrite <- (str_rev_rev a), E. apply str_rev_rev. Qed.

(** Record files of different wallets have different names, whenever they
    are written. *)
Lemma record_filename_inj (t1 t2 : string) (n1 n2 : Z) :
  "wallet_" +:+ t1 +:+ "_" +:+ str_int n1 +:+ ".json"
  = "wallet_" +:+ t2 +:+ "_" +:+ str_int n2 +:+ ".json" ->
  n1 = n2.
Proof.
  intros E. apply str_int_inj, str_rev_inj.
  apply (f_equal Py.rev) in E.
  rewrite !str_rev_app in E. simpl in E.
  rewrite !str_app_assoc in E. simpl in E.
  inversion E as [E']. clear E.
  apply (before_underscore _ _ _ _ ltac:(rewrite all_chars_rev;
                                          apply str_int_no_underscore)
           ltac:(rewrite all_chars_rev; apply str_int_no_underscore) E').
Qed.

End NameFacts.

(** ** Wallet generation *)

Section WalletFacts.

Import CreateWallet CreateWalletSpec.

Context `{Clock} `{WalletLib} `{Fpdf}.

(** One wallet: the draw of entropy decides whether the call returns; the
    record holds the mnemonic of that draw, the key made from it and the
    address of that key; the record is written under a name of its own. *)
Lemma generate_wallet_run (e : env) (wallet_number : option Z) (s : state) :
  match from_key (derived_key e (entropy_reads s)) with
  | Raise ex =>
      snd (generate_wallet e wallet_number s) = Raise ex /\
      files (fst (generate_wallet e wallet_number s)) = files s
  | Ok a =>
      exists w f s',
        generate_wallet e wallet_number s = (s', Ok (w, f)) /\
        Json.subscript w "mnemonic"
        = Ok (JStr (to_mnemonic (token_bytes e (entropy_reads s)))) /\
        Json.subscript w "public_key" = Ok (JStr (address a)) /\
        Json.subscript w "private_key"
        = Ok (JStr (hex (derived_key e (entropy_reads s)))) /\
        files s' = <[f := JsonFile w]> (files s) /\
        entropy_reads s' = S (entropy_reads s) /\
        clock_readings s' = S (S (clock_readings s)) /\
        forall i, wallet_number = Some i -> i <> 0%Z ->
          f = record_filename (now e (S (clock_readings s))) i
  end.
Proof.
  unfold generate_wallet, derived_key, bind, lift, read_entropy, read_clock,
    write_file, modify, ret. simpl.
  destruct (from_key _) as [a|ex] eqn:K; simpl; [|auto].
  eexists _, _, _. split; [reflexivity|].
  rewrite (from_key_key _ _ K). simpl.
  repeat split.
  intros i -> Hi. unfold truthy, record_filename.
  destruct (Z.eqb_spec i 0); [contradiction | reflexivity].
Qed.

(** C9: the private key of a generated wallet is the first 32 bytes of
    the seed computed from the mnemonic with the empty passphrase, with no
    derivation step in between, and the address is the one of the account
    made from that key. *)
Theorem wallet_key_is_seed_prefix
    (e : env) (wallet_number : option Z) (s : state) (a : account) :
  let mnemonic := to_mnemonic (token_bytes e (entropy_reads s)) in
  let private_key := firstn 32 (to_seed mnemonic "") in
  from_key private_key = Ok a ->
  exists w f s',
    generate_wallet e wallet_number s = (s', Ok (w, f)) /\
    Json.subscript w "mnemonic" = Ok (JStr mnemonic) /\
    Json.subscript w "private_key" = Ok (JStr (hex private_key)) /\
    unhex (hex private_key) = Some private_key /\
    key a = private_key /\
    Json.subscript w "public_key" = Ok (JStr (address a)).
Proof.
  cbv zeta. intros K.
  pose proof (generate_wallet_run e wallet_number s) as R.
  unfold derived_key in R. rewrite K in R.
  destruct R as (w & f & s' & E & Hm & Ha & Hk & _).
  exists w, f, s'. repeat split; auto using unhex_hex.
  now apply from_key_key.
Qed.

(** The same draw of entropy gives the same mnemonic, and the second run
    returns when the first does. *)
Lemma same_entropy_same_mnemonic
    (e1 e2 : env) (n1 n2 : option Z) (s1 s2 s1' : state)
    (w1 : json) (f1 : string) :
  token_bytes e1 (entropy_reads s1) = token_bytes e2 (entropy_reads s2) ->
  generate_wallet e1 n1 s1 = (s1', Ok (w1, f1)) ->
  exists w2 f2 s2',
    generate_wallet e2 n2 s2 = (s2', Ok (w2, f2)) /\
    Json.subscript w1 "mnemonic" = Json.subscript w2 "mnemonic".
Proof.
  intros T R1.
  pose proof (generate_wallet_run e1 n1 s1) as G1.
  pose proof (generate_wallet_run e2 n2 s2) as G2.
  unfold derived_key in *. rewrite <- T in G2.
  destruct (from_key _) as [a|ex].
  - destruct G1 as (w & f & s' & E1 & M1 & _).
    destruct G2 as (w2 & f2 & s2' & E2 & M2 & _).
    rewrite R1 in E1. inversion E1; subst.
    exists w2, f2, s2'. split; [exact E2|]. now rewrite M1, M2.
  - destruct G1 as [G1 _]. rewrite R1 in G1. discriminate.
Qed.

(** C6: two runs of the generation that come to the same mnemonic,
    whatever the clock, the disk and the wallet number, record the same
    address and the same private key. *)
Theorem wallet_determined_by_mnemonic
    (e1 e2 : env) (n1 n2 : option Z) (s1 s2 s1' s2' : state)
    (w1 w2 : json) (f1 f2 : string) :
  generate_wallet e1 n1 s1 = (s1', Ok (w1, f1)) ->
  generate_wallet e2 n2 s2 = (s2', Ok (w2, f2)) ->
  Json.subscript w1 "mnemonic" = Json.subscript w2 "mnemonic" ->
  Json.subscript w1 "public_key" = Json.subscript w2 "public_key" /\
  Json.subscript w1 "private_key" = Json.subscript w2 "private_key" /\
  is_ok (Json.subscript w1 "public_key") = true /\
  is_ok (Json.subscript w1 "private_key") = true.
Proof.
  intros R1 R2 M.
  pose proof (generate_wallet_run e1 n1 s1) as G1.
  pose proof (generate_wallet_run e2 n2 s2) as G2.
  unfold derived_key in *.
  destruct (from_key (firstn 32 (to_seed (to_mnemonic
             (token_bytes e1 (entropy_reads s1))) ""))) as [a1|ex1] eqn:K1;
    [|destruct G1 as [G1 _]; rewrite R1 in G1; discriminate].
  destruct (from_key (firstn 32 (to_seed (to_mnemonic
             (token_bytes e2 (entropy_reads s2))) ""))) as [a2|ex2] eqn:K2;
    [|destruct G2 as [G2 _]; rewrite R2 in G2; discriminate].
  destruct G1 as (w & f & s' & E1 & M1 & A1 & P1 & _).
  destruct G2 as (w' & f' & s'' & E2 & M2 & A2 & P2 & _).
  rewrite R1 in E1. rewrite R2 in E2.
  inversion E1; subst. inversion E2; subst.
  rewrite M1, M2 in M. inversion M as [Mn].
  rewrite Mn in K1. rewrite K1 in K2. inversion K2; subst.
  rewrite A1, A2, P1, P2, Mn. auto.
Qed.

Lemma comprehension_length {A B} (f : A -> result B) (l : list A)
    (r : list B) :
  Json.comprehension f l = Ok r -> length r = length l.
Proof.
  revert r. induction l as [|x l IH]; intros r E; simpl in E.
  - now inversion E.
  - destruct (f x); [|discriminate].
    destruct (Json.comprehension f l); [|discriminate].
    inversion E; subst. simpl. f_equal. now apply IH.
Qed.

Lemma range_length (a b : Z) : length (range a b) = Z.to_nat (b - a).
Proof. unfold range. now rewrite length_map, length_seq. Qed.

Lemma range_NoDup (a b : Z) : NoDup (range a b).
Proof.
  unfold range. generalize (Z.to_nat (b - a)) as n. intros n.
  generalize (NoDup_seq 0 n). generalize (seq 0 n) as l.
  induction l as [|x l IH]; intros N; simpl; [constructor|].
  inversion N as [|? ? Hx N']; subst. constructor; [|now apply IH].
  rewrite list_elem_of_In, in_map_iff. intros (y & E & Hy).
  assert (y = x) by lia. subst. now apply Hx, list_elem_of_In.
Qed.

Lemma range_from_one (b i : Z) : In i (range 1 b) -> i <> 0%Z.
Proof.
  unfold range. rewrite in_map_iff. intros (k & <- & _). lia.
Qed.

(** The loop over the wallet numbers: every wallet gets a record, an
    address and a record file of its own, and no other file changes. *)
Lemma wallet_loop_run (e : env) (count : Z) (indices : list Z) :
  forall (l : locals) (s : state),
  NoDup indices ->
  (forall i, In i indices -> i <> 0%Z) ->
  (forall k, k < length indices ->
     is_ok (from_key (derived_key e (entropy_reads s + k))) = true) ->
  exists s' l' names ws addrs,
    wallet_loop e count indices l s = (s', Ok l') /\
    all_wallets l' = all_wallets l ++ ws /\
    public_addresses l' = public_addresses l ++ addrs /\
    length ws = length indices /\
    length names = length indices /\
    Json.comprehension (fun w => Json.subscript w "public_key") ws
    = Ok addrs /\
    Forall2 (fun n i => exists t, n = record_filename t i) names indices /\
    (forall k n, names !! k = Some n ->
       exists w, ws !! k = Some w /\ files s' !! n = Some (JsonFile w)) /\
    (forall n, ~ In n names -> files s' !! n = files s !! n) /\
    clock_readings s' = clock_readings s + 2 * length indices.
Proof.
  induction indices as [|i rest IH]; intros l s Hnd Hnz Hkeys.
  - exists s, l, [], [], []. simpl. rewrite !app_nil_r.
    repeat split; auto; try lia. intros k n E. destruct k; discriminate.
  - pose proof (generate_wallet_run e (Some i) s) as G.
    pose proof (Hkeys 0 ltac:(simpl; lia)) as K0.
    rewrite Nat.add_0_r in K0.
    destruct (from_key (derived_key e (entropy_reads s))) as [a|] eqn:K;
      [clear K0 | discriminate K0].
    destruct G as (w & f & s1 & G & _ & Ga & _ & Gf & Ge & Gc & Gn).
    specialize (Gn i eq_refl (Hnz i (or_introl eq_refl))).
    apply NoDup_cons in Hnd as [Hi Hnd'].
    destruct (IH {| all_wallets := all_wallets l ++ [w];
                    public_addresses :=
                      public_addresses l ++ [JStr (address a)];
                    pdf := if ((i mod 5 =? 0) && (i <? count))%Z
                           then add_page (create_wallet_card (pdf l) w)
                           else create_wallet_card (pdf l) w |}
                 s1 Hnd')
      as (s' & l' & names & ws & addrs
          & R & Hw & Ha & Lw & Ln & Hc & Hf & Hlook & Hother & Hclock).
    { intros j Hj. apply Hnz. now right. }
    { intros k Hk. rewrite Ge.
      replace (S (entropy_reads s) + k) with (entropy_reads s + S k) by lia.
      apply Hkeys. simpl. lia. }
    assert (Hfresh : ~ In f names).
    { intros Hin. apply Hi.
      apply list_elem_of_In, list_elem_of_lookup in Hin as (k & Hk).
      destruct (Forall2_lookup_l _ _ _ _ _ Hf Hk) as (j & Hj & t & Ej).
      rewrite Gn in Ej. unfold record_filename in Ej.
      apply record_filename_inj in Ej. subst j.
      apply list_elem_of_lookup_2 in Hj. now apply list_elem_of_In. }
    exists s', l', (f :: names), (w :: ws), (JStr (address a) :: addrs).
    simpl in Hw, Ha.
    split.
    { simpl. unfold bind at 1. rewrite G. simpl.
      unfold bind at 1, lift at 1. rewrite Ga. exact R. }
    split; [now rewrite Hw, <- app_assoc|].
    split; [now rewrite Ha, <- app_assoc|].
    split; [simpl; now rewrite Lw|]. split; [simpl; now rewrite Ln|].
    split; [simpl; now rewrite Ga, Hc|].
    split; [constructor; [eauto | exact Hf]|].
    split.
    { intros [|k] n E; simpl in E.
      - inversion E; subst. exists w. split; [reflexivity|].
        rewrite (Hother _ Hfresh), Gf. apply lookup_insert_eq.
      - apply Hlook, E. }
    split.
    { intros n Hn. rewrite Hother by (intros Hin; apply Hn; now right).
      rewrite Gf. apply lookup_insert_ne. intros ->. apply Hn. now left. }
    rewrite Hclock, Gc. simpl. lia.
Qed.

Lemma record_filename_not_cards (t : datetime) (i : Z) (x : string) :
  record_filename t i <> "wallet_cards_" +:+ x +:+ ".pdf".
Proof.
  unfold record_filename. intros E. apply (f_equal Py.rev) in E.
  rewrite !str_rev_app in E. simpl in E. rewrite !str_app_assoc in E.
  simpl in E. discriminate E.
Qed.

Lemma record_filename_not_master (t : datetime) (i : Z) (x : string) :
  record_filename t i <> "all_wallets_" +:+ x +:+ ".json".
Proof. unfold record_filename. simpl. discriminate. Qed.

Lemma record_filename_not_addresses (t : datetime) (i : Z) (x : string) :
  record_filename t i <> "public_addresses_" +:+ x +:+ ".json".
Proof. unfold record_filename. simpl. discriminate. Qed.

Lemma record_filenames_NoDup (names : list string) (indices : list Z) :
  Forall2 (fun n i => exists t, n = record_filename t i) names indices ->
  NoDup indices -> NoDup names.
Proof.
  induction 1 as [|n i names indices [t ->] F IH]; intros N.
  - constructor.
  - apply NoDup_cons in N as [Hi N]. apply NoDup_cons. split; [|auto].
    intros Hin. apply Hi.
    apply list_elem_of_lookup in Hin as (k & Hk).
    destruct (Forall2_lookup_l _ _ _ _ _ F Hk) as (j & Hj & t' & Ej).
    unfold record_filename in Ej. apply record_filename_inj in Ej. subst j.
    now apply list_elem_of_lookup_2 in Hj.
Qed.

Lemma bind_read_clock_wallet {B} (e : env) (k : datetime -> prog state B)
    (s : state) :
  bind (read_clock e) k s
  = k (now e (clock_readings s))
      {| entropy_reads := entropy_reads s;
         clock_readings := S (clock_readings s); files := files s |}.
Proof. reflexivity. Qed.

(** A whole run: the record files, the cards, the aggregate file and the
    addresses file, and nothing else. *)
Lemma generate_multiple_wallets_run (e : env) (count : Z) (s : state) :
  (forall k, k < Z.to_nat count ->
     is_ok (from_key (derived_key e (entropy_reads s + k))) = true) ->
  let timestamp := strftime (now e (clock_readings s)) "%Y%m%d_%H%M%S" in
  let cards := "wallet_cards_" +:+ timestamp +:+ ".pdf" in
  let master := "all_wallets_" +:+ timestamp +:+ ".json" in
  let addresses_file := "public_addresses_" +:+ timestamp +:+ ".json" in
  exists s' names records addresses document created,
    generate_multiple_wallets e count s = (s', Ok tt) /\
    length names = Z.to_nat count /\
    length records = Z.to_nat count /\
    length addresses = Z.to_nat count /\
    NoDup (cards :: master :: addresses_file :: names) /\
    (forall k n, names !! k = Some n ->
       exists w, records !! k = Some w /\
                 files s' !! n = Some (JsonFile w)) /\
    files s' !! master = Some (JsonFile (JArr records)) /\
    files s' !! addresses_file
    = Some (JsonFile
              (JObj [("addresses", JArr addresses);
                     ("count", JInt (Z.of_nat (Z.to_nat count)));
                     ("created_at", JStr created)])) /\
    files s' !! cards = Some (PdfFile document) /\
    (forall n, ~ In n (cards :: master :: addresses_file :: names) ->
       files s' !! n = files s !! n) /\
    Distribute.public_keys (JArr records) = Ok addresses.
Proof.
  intros Hkeys. cbv zeta.
  assert (Hlen : length (range 1 (count + 1)) = Z.to_nat count).
  { rewrite range_length. f_equal. lia. }
  unfold generate_multiple_wallets.
  rewrite bind_read_clock_wallet.
  destruct (wallet_loop_run e count (range 1 (count + 1))
              {| all_wallets := []; public_addresses := [];
                 pdf := set_auto_page_break (add_page FPDF) |}
              {| entropy_reads := entropy_reads s;
                 clock_readings := S (clock_readings s);
                 files := files s |}
              (range_NoDup _ _) (range_from_one _))
    as (s1 & l & names & ws & addrs
        & R & Hw & Ha & Lw & Ln & Hc & Hf & Hlook & Hother & _).
  { intros k Hk. apply Hkeys. now rewrite <- Hlen. }
  simpl in Hw, Ha, Hother.
  unfold bind at 1. rewrite R.
  unfold write_file. rewrite !bind_modify, bind_read_clock_wallet.
  unfold modify. cbn [entropy_reads clock_readings files].
  rewrite Hw, Ha.
  set (timestamp := strftime (now e (clock_readings s)) "%Y%m%d_%H%M%S").
  assert (Hnames : forall n x,
            In n names ->
            n <> "wallet_cards_" +:+ x +:+ ".pdf" /\
            n <> "all_wallets_" +:+ x +:+ ".json" /\
            n <> "public_addresses_" +:+ x +:+ ".json").
  { intros n x Hin.
    apply list_elem_of_In, list_elem_of_lookup in Hin as (k & Hk).
    destruct (Forall2_lookup_l _ _ _ _ _ Hf Hk) as (j & _ & t & ->).
    auto using record_filename_not_cards, record_filename_not_master,
      record_filename_not_addresses. }
  eexists _, names, ws, addrs, _, _.
  split; [reflexivity|].
  split; [now rewrite Ln|]. split; [now rewrite Lw|].
  split; [apply comprehension_length in Hc; now rewrite Hc, Lw|].
  split.
  { repeat (apply NoDup_cons; split).
    - rewrite !elem_of_cons. intros [E|[E|Hin]]; try discriminate E.
      apply list_elem_of_In in Hin.
      now apply (Hnames _ timestamp) in Hin as (Hin & _).
    - rewrite !elem_of_cons. intros [E|Hin]; try discriminate E.
      apply list_elem_of_In in Hin.
      now apply (Hnames _ timestamp) in Hin as (_ & Hin & _).
    - intros Hin. apply list_elem_of_In in Hin.
      now apply (Hnames _ timestamp) in Hin as (_ & _ & Hin).
    - exact (record_filenames_NoDup _ _ Hf (range_NoDup _ _)). }
  cbn [files].
  split.
  { intros k n Hk. destruct (Hlook k n Hk) as (w & Ew & Hfile).
    exists w. split; [exact Ew|].
    apply list_elem_of_lookup_2, list_elem_of_In in Hk.
    destruct (Hnames n timestamp Hk) as (N1 & N2 & N3).
    rewrite !lookup_insert_ne by congruence. exact Hfile. }
  split.
  { rewrite lookup_insert_ne by discriminate. apply lookup_insert_eq. }
  split.
  { etrans; [apply lookup_insert_eq|].
    apply comprehension_length in Hc as Hl. rewrite Hl, Lw, Hlen.
    reflexivity. }
  split.
  { rewrite !lookup_insert_ne by discriminate. apply lookup_insert_eq. }
  split.
  { intros n Hn. simpl in Hn.
    rewrite !lookup_insert_ne by (intros <-; apply Hn; auto).
    apply Hother. intros Hin. apply Hn. auto. }
  unfold Distribute.public_keys. simpl. exact Hc.
Qed.

(** C7: for a count N of at least 1, a run over draws of entropy that
    all give a key writes exactly N record files, under N different names,
    one aggregate file with the N records, and one addresses file whose
    list has N entries and whose count field is N. *)
Theorem multiple_wallets_counts (e : env) (count : Z) (s : state) :
  (1 <= count)%Z ->
  (forall k, k < Z.to_nat count ->
     is_ok (from_key (derived_key e (entropy_reads s + k))) = true) ->
  let timestamp := strftime (now e (clock_readings s)) "%Y%m%d_%H%M%S" in
  let cards := "wallet_cards_" +:+ timestamp +:+ ".pdf" in
  let master := "all_wallets_" +:+ timestamp +:+ ".json" in
  let addresses_file := "public_addresses_" +:+ timestamp +:+ ".json" in
  exists s' names records addresses created,
    generate_multiple_wallets e count s = (s', Ok tt) /\
    Z.of_nat (length names) = count /\
    NoDup (cards :: master :: addresses_file :: names) /\
    (forall k n, names !! k = Some n ->
       exists w, records !! k = Some w /\
                 files s' !! n = Some (JsonFile w)) /\
    files s' !! master = Some (JsonFile (JArr records)) /\
    Z.of_nat (length records) = count /\
    files s' !! addresses_file
    = Some (JsonFile
              (JObj [("addresses", JArr addresses);
                     ("count", JInt count);
                     ("created_at", JStr created)])) /\
    Z.of_nat (length addresses) = count /\
    (forall n, ~ In n (cards :: master :: addresses_file :: names) ->
       files s' !! n = files s !! n).
Proof.
  intros Hcount Hkeys. cbv zeta.
  destruct (generate_multiple_wallets_run e count s Hkeys)
    as (s' & names & records & addresses & document & created
        & R & Ln & Lr & La & Hnd & Hlook & Hm & Hadd & _ & Hother & _).
  rewrite Z2Nat.id in Hadd by lia.
  exists s', names, records, addresses, created.
  rewrite Ln, Lr, La, Z2Nat.id by lia.
  repeat split; auto.
Qed.

(** C8: the addresses read off the records of the aggregate file, in
    order, the way the distributor reads them, are the list stored under
    [addresses] in the addresses file of the same run. *)
Theorem aggregate_addresses_round_trip (e : env) (count : Z) (s : state) :
  (forall k, k < Z.to_nat count ->
     is_ok (from_key (derived_key e (entropy_reads s + k))) = true) ->
  let timestamp := strftime (now e (clock_readings s)) "%Y%m%d_%H%M%S" in
  let master := "all_wallets_" +:+ timestamp +:+ ".json" in
  let addresses_file := "public_addresses_" +:+ timestamp +:+ ".json" in
  exists s' aggregate document addresses,
    generate_multiple_wallets e count s = (s', Ok tt) /\
    files s' !! master = Some (JsonFile aggregate) /\
    files s' !! addresses_file = Some (JsonFile document) /\
    Json.subscript document "addresses" = Ok (JArr addresses) /\
    Distribute.public_keys aggregate = Ok addresses.
Proof.
  intros Hkeys. cbv zeta.
  destruct (generate_multiple_wallets_run e count s Hkeys)
    as (s' & names & records & addresses & document & created
        & R & _ & _ & _ & _ & _ & Hm & Hadd & _ & _ & Hpk).
  eexists s', (JArr records), _, addresses.
  split; [exact R|]. split; [exact Hm|]. split; [exact Hadd|].
  split; [reflexivity | exact Hpk].
Qed.

(** X21: run from the command line with a count of 1 the script does not
    go through [generate_multiple_wallets]: it writes one record file,
    whose name has no number, and one card, and no aggregate or addresses
    file. *)
Lemma main_single_wallet (e : env) (s : state) (a : account) :
  from_key (derived_key e (entropy_reads s)) = Ok a ->
  exists w document,
    let stamp := strftime (now e (S (clock_readings s))) "%Y%m%d_%H%M%S" in
    let stamp' :=
      strftime (now e (S (S (clock_readings s)))) "%Y%m%d_%H%M%S" in
    files (fst (main e false 1 s))
    = <["wallet_card_" +:+ stamp' +:+ ".pdf" := PdfFile document]>
        (<["wallet_" +:+ stamp +:+ ".json" := JsonFile w]> (files s)) /\
    snd (main e false 1 s) = Ok tt.
Proof.
  intros K. unfold derived_key in K.
  unfold main, generate_wallet, bind, lift, read_entropy, read_clock,
    write_file, modify, ret. simpl. rewrite K. simpl.
  eexists _, _. split; reflexivity.
Qed.

(** *** More on the generator *)

(** X18: when the account library rejects the key made from the draw of
    entropy, [generate_wallet] raises what the library raised and writes no
    file; the draw is spent and the clock was not read. *)
Theorem rejected_key_writes_nothing
    (e : env) (wallet_number : option Z) (s : state) (ex : exn) :
  from_key (derived_key e (entropy_reads s)) = Raise ex ->
  exists s',
    generate_wallet e wallet_number s = (s', Raise ex) /\
    files s' = files s /\
    entropy_reads s' = S (entropy_reads s) /\
    clock_readings s' = clock_readings s.
Proof.
  intros K. unfold derived_key in K.
  unfold generate_wallet, bind, lift, read_entropy. simpl. rewrite K.
  eexists. repeat split.
Qed.

(** X19: two single wallets generated one after the other while the clock
    shows the same second get the same file name, and the record of the
    second replaces the record of the first: one file is left. *)
Theorem single_wallets_same_second_overwrite
    (e : env) (s : state) (a1 a2 : account) :
  from_key (derived_key e (entropy_reads s)) = Ok a1 ->
  from_key (derived_key e (S (entropy_reads s))) = Ok a2 ->
  strftime (now e (S (clock_readings s))) "%Y%m%d_%H%M%S"
  = strftime (now e (S (S (S (clock_readings s))))) "%Y%m%d_%H%M%S" ->
  exists w1 w2 f s1 s2,
    generate_wallet e None s = (s1, Ok (w1, f)) /\
    generate_wallet e None s1 = (s2, Ok (w2, f)) /\
    Json.subscript w2 "public_key" = Ok (JStr (address a2)) /\
    files s2 = <[f := JsonFile w2]> (files s).
Proof.
  intros K1 K2 T. unfold derived_key in K1, K2.
  eexists _, _, _, _, _. split.
  { unfold generate_wallet, bind, lift, read_entropy, read_clock,
      write_file, modify, ret. simpl. rewrite K1. reflexivity. }
  split.
  { unfold generate_wallet, bind, lift, read_entropy, read_clock,
      write_file, modify, ret. simpl. rewrite K2. simpl. rewrite <- T.
    reflexivity. }
  split; [reflexivity|]. simpl. apply insert_insert_eq.
Qed.

(** X20: run with [--sample], or with a count below 1, the script returns
    without drawing entropy; with [--sample] the one file it writes is the
    sample card, and without it writes no file at all. *)
Theorem main_without_generation
    (e : env) (sample : bool) (count : Z) (s : state) :
  sample = true \/ (count < 1)%Z ->
  exists s' document,
    main e sample count s = (s', Ok tt) /\
    entropy_reads s' = entropy_reads s /\
    files s'
    = if sample
      then <["sample_wallet_card.pdf" := PdfFile document]> (files s)
      else files s.
Proof.
  intros C. unfold main. destruct sample.
  - unfold generate_sample_card, bind, read_clock, write_file, modify.
    eexists _, _. split; [reflexivity|]. split; reflexivity.
  - destruct C as [C|C]; [discriminate|].
    apply Z.ltb_lt in C. rewrite C. exists s, FPDF. auto.
Qed.

(** X22: asked for no wallet, or for fewer, [generate_multiple_wallets]
    draws no key and still writes its three files: an aggregate that is
    the empty list, an addresses file with no address and count 0, and the
    cards; it touches no other file. *)
Theorem no_wallets_requested (e : env) (count : Z) (s : state) :
  (count <= 0)%Z ->
  let timestamp := strftime (now e (clock_readings s)) "%Y%m%d_%H%M%S" in
  let cards := "wallet_cards_" +:+ timestamp +:+ ".pdf" in
  let master := "all_wallets_" +:+ timestamp +:+ ".json" in
  let addresses_file := "public_addresses_" +:+ timestamp +:+ ".json" in
  exists s' document created,
    generate_multiple_wallets e count s = (s', Ok tt) /\
    entropy_reads s' = entropy_reads s /\
    files s' !! master = Some (JsonFile (JArr [])) /\
    files s' !! addresses_file
    = Some (JsonFile
              (JObj [("addresses", JArr []); ("count", JInt 0);
                     ("created_at", JStr created)])) /\
    files s' !! cards = Some (PdfFile document) /\
    forall n, n <> cards -> n <> master -> n <> addresses_file ->
              files s' !! n = files s !! n.
Proof.
  intros C. cbv zeta.
  assert (R0 : range 1 (count + 1) = []).
  { unfold range. replace (Z.to_nat (count + 1 - 1)) with 0 by lia.
    reflexivity. }
  unfold generate_multiple_wallets. rewrite bind_read_clock_wallet, R0.
  unfold wallet_loop, write_file.
  rewrite bind_ret, !bind_modify, bind_read_clock_wallet.
  unfold modify. simpl.
  eexists _, _, _. split; [reflexivity|]. simpl.
  split; [reflexivity|].
  split; [rewrite lookup_insert_ne by discriminate;
          apply lookup_insert_eq|].
  split; [apply lookup_insert_eq|].
  split; [rewrite !lookup_insert_ne by discriminate;
          apply lookup_insert_eq|].
  intros n N1 N2 N3. now rewrite !lookup_insert_ne by congruence.
Qed.

Lemma generate_wallet_number
    (e : env) (i : Z) (s s1 : state) (w : json) (f : string) :
  i <> 0%Z ->
  generate_wallet e (Some i) s = (s1, Ok (w, f)) ->
  Json.subscript w "wallet_number" = Ok (JInt i).
Proof.
  intros Hi. unfold generate_wallet, bind, lift, read_entropy, read_clock,
    write_file, modify, ret. simpl.
  destruct (from_key _); simpl; [|discriminate].
  intros E. inversion E. simpl.
  destruct (Z.eqb_spec i 0); [contradiction | reflexivity].
Qed.

Lemma wallet_loop_numbers (e : env) (count : Z) (indices : list Z) :
  forall (l l' : locals) (s s' : state),
  (forall i, In i indices -> i <> 0%Z) ->
  wallet_loop e count indices l s = (s', Ok l') ->
  exists ws,
    all_wallets l' = all_wallets l ++ ws /\
    Forall2 (fun w i => Json.subscript w "wallet_number" = Ok (JInt i))
      ws indices.
Proof.
  induction indices as [|i rest IH]; intros l l' s s' Hnz R.
  - inversion R. exists []. now rewrite app_nil_r.
  - cbn [wallet_loop] in R. unfold bind at 1 in R.
    destruct (generate_wallet e (Some i) s) as [s1 [[w f]|ex]] eqn:G;
      [|discriminate R].
    rewrite bind_lift in R. cbn [fst] in R.
    destruct (Json.subscript w "public_key") as [pk|]; [|discriminate R].
    apply IH in R as (ws & Hw & F); [|intros j Hj; apply Hnz; now right].
    exists (w :: ws). cbn [all_wallets] in Hw.
    split; [now rewrite Hw, <- app_assoc|].
    constructor; [|exact F].
    eapply generate_wallet_number; [|exact G]. apply Hnz. now left.
Qed.

Lemma range_lookup (a b : Z) (k : nat) (i : Z) :
  range a b !! k = Some i -> i = (a + Z.of_nat k)%Z.
Proof.
  unfold range. generalize (Z.to_nat (b - a)) as n. intros n.
  assert (G : forall l j, map (fun x => (a + Z.of_nat x)%Z) l !! j = Some i ->
                          exists x, l !! j = Some x /\ i = (a + Z.of_nat x)%Z).
  { induction l as [|x l IH]; intros [|j] E; try discriminate.
    - inversion E. now exists x.
    - now apply IH. }
  intros E. apply G in E as (x & Ex & ->).
  apply lookup_seq in Ex as [-> _]. reflexivity.
Qed.

(** X23: the records of the aggregate file are numbered from 1 in the
    order they were generated: the record at index k of the list has
    [wallet_number] k + 1. *)
Theorem aggregate_numbers_wallets (e : env) (count : Z) (s : state) :
  (forall k, k < Z.to_nat count ->
     is_ok (from_key (derived_key e (entropy_reads s + k))) = true) ->
  let timestamp := strftime (now e (clock_readings s)) "%Y%m%d_%H%M%S" in
  let master := "all_wallets_" +:+ timestamp +:+ ".json" in
  exists s' records,
    generate_multiple_wallets e count s = (s', Ok tt) /\
    files s' !! master = Some (JsonFile (JArr records)) /\
    length records = Z.to_nat count /\
    forall k w,
      records !! k = Some w ->
      Json.subscript w "wallet_number" = Ok (JInt (Z.of_nat k + 1)).
Proof.
  intros Hkeys. cbv zeta.
  destruct (generate_multiple_wallets_run e count s Hkeys)
    as (s' & names & records & addresses & document & created
        & R & _ & Lr & _ & _ & _ & Hm & _).
  exists s', records. split; [exact R|]. split; [exact Hm|].
  split; [exact Lr|].
  unfold generate_multiple_wallets in R.
  rewrite bind_read_clock_wallet in R. unfold bind at 1 in R.
  destruct (wallet_loop e count (range 1 (count + 1)) _ _)
    as [s1 [l|ex]] eqn:W; [|discriminate R].
  apply wallet_loop_numbers in W as (ws & Hws & F);
    [|apply range_from_one].
  cbn [all_wallets app] in Hws.
  unfold write_file in R.
  rewrite !bind_modify, bind_read_clock_wallet in R.
  unfold modify in R. inversion R as [Hs']. clear R.
  rewrite <- Hs' in Hm. cbn [files] in Hm.
  rewrite lookup_insert_ne in Hm by discriminate.
  rewrite lookup_insert_eq in Hm. inversion Hm as [Hrec].
  rewrite Hws. intros k w Ek.
  destruct (Forall2_lookup_l _ _ _ _ _ F Ek) as (i & Ei & Hi).
  apply range_lookup in Ei. rewrite Hi, Ei. do 2 f_equal. lia.
Qed.

(** The loop writes record files only. *)
Lemma wallet_loop_only_records (e : env) (count : Z) (indices : list Z) :
  forall (l : locals) (s s' : state) (r : result locals),
  (forall i, In i indices -> i <> 0%Z) ->
  wallet_loop e count indices l s = (s', r) ->
  forall n, (forall t i, n <> record_filename t i) ->
            files s' !! n = files s !! n.
Proof.
  induction indices as [|i rest IH]; intros l s s' r Hnz R n Hn.
  - now inversion R.
  - cbn [wallet_loop] in R. unfold bind at 1 in R.
    pose proof (generate_wallet_run e (Some i) s) as G.
    destruct (from_key (derived_key e (entropy_reads s))) as [a|ex].
    + destruct G as (w & f & s1 & G & _ & Ga & _ & Gf & _ & _ & Gn).
      specialize (Gn i eq_refl (Hnz i (or_introl eq_refl))).
      rewrite G, bind_lift in R. cbn [fst] in R. rewrite Ga in R.
      apply (IH _ _ _ _ (fun j Hj => Hnz j (or_intror Hj))) with (n := n)
        in R; [|exact Hn].
      rewrite R, Gf. apply lookup_insert_ne. rewrite Gn. auto.
    + destruct G as [G1 G2].
      destruct (generate_wallet e (Some i) s) as [s1 [x|ex1]];
        [discriminate G1|].
      inversion R; subst. simpl in G2. now rewrite G2.
Qed.

(** The loop stops at the first draw of entropy whose key is rejected. *)
Lemma wallet_loop_fails (e : env) (count : Z) (ex : exn)
    (indices : list Z) :
  forall (j : nat) (l : locals) (s : state),
  j < length indices ->
  (forall k, k < j ->
     is_ok (from_key (derived_key e (entropy_reads s + k))) = true) ->
  from_key (derived_key e (entropy_reads s + j)) = Raise ex ->
  snd (wallet_loop e count indices l s) = Raise ex.
Proof.
  induction indices as [|i rest IH]; intros j l s Hj Hok Hbad;
    [simpl in Hj; lia|].
  cbn [wallet_loop]. unfold bind at 1.
  pose proof (generate_wallet_run e (Some i) s) as G.
  destruct j as [|j].
  - rewrite Nat.add_0_r in Hbad. rewrite Hbad in G. destruct G as [G _].
    destruct (generate_wallet e (Some i) s) as [s1 [x|ex1]];
      [discriminate G|].
    simpl in G. inversion G. reflexivity.
  - pose proof (Hok 0 ltac:(lia)) as K0. rewrite Nat.add_0_r in K0.
    destruct (from_key (derived_key e (entropy_reads s))) as [a|];
      [|discriminate K0].
    destruct G as (w & f & s1 & G & _ & Ga & _ & _ & Ge & _).
    rewrite G, bind_lift. cbn [fst]. rewrite Ga.
    apply (IH j); [simpl in Hj; lia | |].
    + intros k Hk. rewrite Ge.
      replace (S (entropy_reads s) + k) with (entropy_reads s + S k)
        by lia.
      apply Hok. lia.
    + rewrite Ge.
      now replace (S (entropy_reads s) + j) with (entropy_reads s + S j)
        by lia.
Qed.

(** Until then it has written the record files of the wallets before:
    that of the wallet at index [k] under the time of the second reading
    of the clock that wallet made. *)
Lemma wallet_loop_fails_files (e : env) (count : Z) (ex : exn)
    (indices : list Z) :
  forall (j : nat) (l : locals) (s : state),
  j < length indices ->
  (forall i, In i indices -> i <> 0%Z) ->
  (forall k, k < j ->
     is_ok (from_key (derived_key e (entropy_reads s + k))) = true) ->
  from_key (derived_key e (entropy_reads s + j)) = Raise ex ->
  forall n,
    (forall k i, k < j -> indices !! k = Some i ->
       n <> record_filename (now e (clock_readings s + 2 * k + 1)) i) ->
    files (fst (wallet_loop e count indices l s)) !! n = files s !! n.
Proof.
  induction indices as [|i rest IH]; intros j l s Hj Hnz Hok Hbad n Hn;
    [simpl in Hj; lia|].
  cbn [wallet_loop]. unfold bind at 1.
  pose proof (generate_wallet_run e (Some i) s) as G.
  destruct j as [|j].
  - rewrite Nat.add_0_r in Hbad. rewrite Hbad in G. destruct G as [G1 G2].
    destruct (generate_wallet e (Some i) s) as [s1 [x|ex1]];
      [discriminate G1|].
    simpl in G2. simpl. now rewrite G2.
  - pose proof (Hok 0 ltac:(lia)) as K0. rewrite Nat.add_0_r in K0.
    destruct (from_key (derived_key e (entropy_reads s))) as [a|];
      [|discriminate K0].
    destruct G as (w & f & s1 & G & _ & Ga & _ & Gf & Ge & Gc & Gn).
    specialize (Gn i eq_refl (Hnz i (or_introl eq_refl))).
    rewrite G, bind_lift. cbn [fst]. rewrite Ga.
    rewrite (IH j); [| simpl in Hj; lia | intros i' Hi'; apply Hnz; now right
                     | | |].
    + rewrite Gf. apply lookup_insert_ne. rewrite Gn. intros Q.
      apply (Hn 0 i ltac:(lia) eq_refl).
      rewrite <- Q. f_equal. f_equal. lia.
    + intros k Hk. rewrite Ge.
      replace (S (entropy_reads s) + k) with (entropy_reads s + S k)
        by lia.
      apply Hok. lia.
    + rewrite Ge.
      now replace (S (entropy_reads s) + j) with (entropy_reads s + S j)
        by lia.
    + intros k i' Hk Ei' Q. apply (Hn (S k) i' ltac:(lia) Ei').
      rewrite Q, Gc. f_equal. f_equal. lia.
Qed.

(** X24: when the key of one of the wallets asked for is rejected, the run
    raises what the library raised and writes neither the aggregate file,
    nor the addresses file, nor the cards: the only files it has written
    are the record files of the wallets before that one, numbered from 1,
    each under the time that wallet read from the clock. *)
Theorem failed_generation_leaves_no_aggregate
    (e : env) (count : Z) (s : state) (j : nat) (ex : exn) :
  j < Z.to_nat count ->
  (forall k, k < j ->
     is_ok (from_key (derived_key e (entropy_reads s + k))) = true) ->
  from_key (derived_key e (entropy_reads s + j)) = Raise ex ->
  exists s',
    generate_multiple_wallets e count s = (s', Raise ex) /\
    forall n,
      (forall k, k < j ->
         n <> record_filename (now e (clock_readings s + 2 * k + 2))
                (Z.of_nat k + 1)) ->
      files s' !! n = files s !! n.
Proof.
  intros Hj Hok Hbad.
  unfold generate_multiple_wallets. rewrite bind_read_clock_wallet.
  unfold bind at 1.
  match goal with
  | |- context [wallet_loop e count ?ix ?l ?s0] =>
      pose proof (wallet_loop_fails e count ex ix j l s0) as F;
      pose proof (wallet_loop_fails_files e count ex ix j l s0) as O;
      destruct (wallet_loop e count ix l s0) as [s1 [l1|ex1]]
  end.
  - exfalso. cbn [entropy_reads snd] in F.
    rewrite range_length in F.
    discriminate F; auto. lia.
  - cbn [entropy_reads snd] in F. rewrite range_length in F.
    assert (E : Raise ex1 = (Raise ex : result locals))
      by (apply F; auto; lia).
    inversion E; subst ex1. exists s1. split; [reflexivity|].
    intros n Hn. cbn [files entropy_reads clock_readings fst] in O.
    apply O;
      [rewrite range_length; lia | apply range_from_one | exact Hok
       | exact Hbad |].
    intros k i Hk Ei. apply range_lookup in Ei. subst i.
    replace (S (clock_readings s) + 2 * k + 1)
      with (clock_readings s + 2 * k + 2) by lia.
    replace (1 + Z.of_nat k)%Z with (Z.of_nat k + 1)%Z by lia.
    now apply Hn.
Qed.

End WalletFacts.

(** ** The statements at work on concrete runs *)

(** C1, as stated, fails: after a recipient whose address does not convert
    the transaction built for position 2 carries the base nonce, and the
    counter ends one above the base, not two. *)
Lemma nonce_not_base_plus_position :
  ~ (forall i t,
       In (i, t) (Distribute.built (fst (Demo.run_loop false))) ->
       Distribute.tx_nonce t
       = (Distribute.nonce Demo.open_state + (Z.of_nat i - 1))%Z) /\
  Distribute.nonce (fst (Demo.run_loop false))
  <> (Distribute.nonce Demo.open_state
      + Z.of_nat (length Demo.recipients))%Z.
Proof.
  split.
  - intros claim. specialize (claim 2 _ (or_introl eq_refl)).
    vm_compute in claim. discriminate claim.
  - vm_compute. discriminate.
Qed.

Lemma nonce_counts_completed_iterations_witness :
  exists ms,
    Distribute.log_file (fst (Demo.run_loop false))
    = Some ("pol_distribution_log_0.txt", [] ++ ms) /\
    length ms = 2 /\
    Distribute.nonce (fst (Demo.run_loop false))
    = (7 + DistributeSpec.completed ms)%Z.
Proof.
  destruct (@nonce_counts_completed_iterations Demo.web3 Demo.streams
              false 1%Z "0xSender" "key" 1000%Z 30%Z 1630%Z Demo.recipients
              Demo.open_state "pol_distribution_log_0.txt" [] eq_refl)
    as (ms & bs & Hl & _ & Hn & _ & _ & Hall).
  exists ms. split; [exact Hl|].
  split; [exact (proj1 (proj2 (Hall eq_refl))) | exact Hn].
Defined.








Lemma wallet_key_is_seed_prefix_witness :
  exists w f s',
    Demo.one_wallet = (s', Ok (w, f)) /\
    Json.subscript w "private_key" = Ok (JStr "0x303130323033").
Proof.
  edestruct (@wallet_key_is_seed_prefix Demo.clock Demo.wallet_lib
               Demo.fpdf Demo.wallet_env (Some 1%Z) Demo.empty_disk)
    as (w & f & s' & E & _ & Hk & _); [reflexivity|].
  exists w, f, s'. split; [exact E | exact Hk].
Defined.

Lemma wallet_determined_by_mnemonic_witness :
  exists s1 w1 f1 s2 w2 f2,
    Demo.one_wallet = (s1, Ok (w1, f1)) /\
    Demo.another_wallet = (s2, Ok (w2, f2)) /\
    Json.subscript w1 "public_key" = Json.subscript w2 "public_key" /\
    Json.subscript w1 "private_key" = Json.subscript w2 "private_key".
Proof.
  pose proof (eq_refl :
    @CreateWallet.generate_wallet Demo.clock Demo.wallet_lib Demo.fpdf
      Demo.wallet_env (Some 1%Z) Demo.empty_disk = Demo.one_wallet) as R1.
  pose proof (eq_refl :
    @CreateWallet.generate_wallet Demo.clock Demo.wallet_lib Demo.fpdf
      Demo.wallet_env None Demo.later_disk = Demo.another_wallet) as R2.
  destruct Demo.one_wallet as [s1 [[w1 f1]|e1]];
    [|vm_compute in R1; discriminate R1].
  destruct Demo.another_wallet as [s2 [[w2 f2]|e2]];
    [|vm_compute in R2; discriminate R2].
  exists s1, w1, f1, s2, w2, f2. split; [reflexivity|]. split; [reflexivity|].
  destruct (wallet_determined_by_mnemonic _ _ _ _ _ _ _ _ _ _ _ _ R1 R2)
    as (Ha & Hk & _); [|auto].
  vm_compute in R1. vm_compute in R2.
  inversion R1; inversion R2; reflexivity.
Defined.

Lemma multiple_wallets_counts_witness :
  exists s' records,
    Demo.two_wallets = (s', Ok tt) /\
    CreateWallet.files s' !! "all_wallets_0.json"
    = Some (CreateWallet.JsonFile (JArr records)) /\
    length records = 2.
Proof.
  destruct (@multiple_wallets_counts Demo.clock Demo.wallet_lib Demo.fpdf
              Demo.wallet_env 2%Z Demo.empty_disk)
    as (s' & names & records & addresses & created
        & E & _ & _ & _ & Hm & Lr & _).
  - vm_compute. discriminate.
  - intros k _. reflexivity.
  - exists s', records. split; [exact E|]. split; [exact Hm|].
    apply Nat2Z.inj. exact Lr.
Defined.

Lemma aggregate_addresses_round_trip_witness :
  exists s' aggregate addresses,
    Demo.two_wallets = (s', Ok tt) /\
    CreateWallet.files s' !! "all_wallets_0.json"
    = Some (CreateWallet.JsonFile aggregate) /\
    Distribute.public_keys aggregate = Ok addresses.
Proof.
  destruct (@aggregate_addresses_round_trip Demo.clock Demo.wallet_lib
              Demo.fpdf Demo.wallet_env 2%Z Demo.empty_disk)
    as (s' & aggregate & document & addresses & E & Hm & _ & _ & Hpk).
  - intros k _. reflexivity.
  - exists s', aggregate, addresses.
    split; [exact E|]. split; [exact Hm | exact Hpk].
Defined.

(** * Further properties *)

(** ** The credential file, again *)

Lemma without_whitespace_fixed (s : string) :
  Py.all_chars (fun c => negb (Py.is_whitespace c)) s = true ->
  Py.without_whitespace s = s.
Proof.
  induction s as [|c s IH]; simpl; [reflexivity|].
  intros A. apply andb_true_iff in A as [Hc A].
  apply negb_true_iff in Hc. rewrite Hc. now rewrite IH.
Qed.

(** X1: whitespace anywhere in the credential file, between the characters
    of the key as well, does not change what [load_private_key] does: two
    files with the same characters apart from whitespace load alike. *)
Theorem load_private_key_ignores_whitespace (contents1 contents2 : string) :
  Py.without_whitespace contents1 = Py.without_whitespace contents2 ->
  Credential.load_private_key (Some contents1)
  = Credential.load_private_key (Some contents2).
Proof.
  intros E. unfold Credential.load_private_key.
  pose proof (normalize_spec contents1) as N1.
  pose proof (normalize_spec contents2) as N2.
  cbv zeta in N1, N2. rewrite E in N1. rewrite <- N2 in N1.
  now rewrite N1.
Qed.

(** X2: a key that [load_private_key] returns has 66 characters, begins
    with the prefix, holds no whitespace, and loads back as itself. *)
Theorem load_private_key_stable (contents private_key : string) :
  Credential.load_private_key (Some contents) = Ok private_key ->
  Credential.load_private_key (Some private_key) = Ok private_key /\
  String.length private_key = 66%nat /\
  Py.startswith private_key "0x" = true /\
  Py.all_chars (fun c => negb (Py.is_whitespace c)) private_key = true.
Proof.
  unfold Credential.load_private_key at 1, Py.len.
  destruct (String.length (Credential.normalize contents) =? 66)%nat eqn:L;
    simpl; [|discriminate].
  intros E. inversion E as [K]. clear E.
  apply Nat.eqb_eq in L.
  pose proof (normalize_no_whitespace contents) as W.
  pose proof (normalize_prefixed contents) as P.
  assert (N : Credential.normalize (Credential.normalize contents)
              = Credential.normalize contents).
  { rewrite (normalize_spec (Credential.normalize contents)). cbv zeta.
    rewrite (without_whitespace_fixed _ W). now rewrite P. }
  repeat split; auto.
  unfold Credential.load_private_key, Py.len. rewrite N, L. reflexivity.
Qed.

(** ** The wallet file of the distributor *)

Section WalletFileFacts.

Import Distribute.

Context `{Clock} `{Web3} `{!Streams}.

Lemma max_by_split {A} (key : A -> Z) (l : list A) :
  forall best,
  exists before after,
    best :: l = before ++ max_by key best l :: after /\
    (forall g, In g before -> (key g < key (max_by key best l))%Z) /\
    (forall g, In g after -> (key g <= key (max_by key best l))%Z).
Proof.
  induction l as [|x l IH]; intros best.
  - exists [], []. simpl. repeat split; intros g [].
  - simpl. destruct (Z.ltb_spec (key best) (key x)) as [Hlt|Hge].
    + destruct (IH x) as (before & after & E & Hb & Ha).
      exists (best :: before), after. rewrite E. split; [reflexivity|].
      split; [|exact Ha].
      intros g [<-|Hg]; [|auto].
      assert (Hx : In x (before ++ max_by key x l :: after))
        by (rewrite <- E; now left).
      apply in_app_or in Hx as [Hx|[Hx|Hx]].
      * specialize (Hb x Hx). lia.
      * rewrite Hx. exact Hlt.
      * specialize (Ha x Hx). lia.
    + destruct (IH best) as (before & after & E & Hb & Ha).
      destruct before as [|y before]; simpl in E; injection E as E1 E2.
      * subst after. exists [], (x :: l). simpl. rewrite <- E1.
        split; [reflexivity|]. split; [intros g []|].
        intros g [<-|Hg]; [lia|]. rewrite E1. now apply Ha.
      * subst y. exists (best :: x :: before), after. simpl.
        split; [now rewrite <- E2|]. split; [|exact Ha].
        intros g [<-|[<-|Hg]].
        -- apply Hb. now left.
        -- specialize (Hb best (or_introl eq_refl)). lia.
        -- apply Hb. now right.
Qed.


End WalletFileFacts.

Lemma comprehension_Forall2 {A B} (f : A -> result B) (l : list A)
    (r : list B) :
  Json.comprehension f l = Ok r <-> Forall2 (fun x y => f x = Ok y) l r.
Proof.
  revert r. induction l as [|x l IH]; intros r; simpl.
  - split.
    + intros E. inversion E. constructor.
    + intros F. now inversion F.
  - split.
    + destruct (f x) as [y|] eqn:Fx; [|discriminate].
      destruct (Json.comprehension f l) as [ys|]; [|discriminate].
      intros E. inversion E; subst. constructor; [exact Fx|].
      now apply IH.
    + intros F. inversion F as [|? y ? ys Fx F']; subst.
      rewrite Fx. apply IH in F'. now rewrite F'.
Qed.

(** X4: what the distributor reads from a wallet file that is a list is
    the [public_key] of every record, in the order of the file, and it
    reads it only if every record has one. *)
Theorem public_keys_in_order (wallets addresses : list json) :
  Distribute.public_keys (JArr wallets) = Ok addresses <->
  Forall2 (fun wallet a => Json.subscript wallet "public_key" = Ok a)
    wallets addresses.
Proof. unfold Distribute.public_keys. simpl. apply comprehension_Forall2. Qed.

(** X5: a record without [public_key], or one that is not an object,
    makes the reading of the whole wallet file raise what the first such
    record raises, whatever follows it. *)
Theorem public_keys_first_error
    (before after : list json) (wallet : json) (ex : exn) :
  (forall v, In v before ->
     is_ok (Json.subscript v "public_key") = true) ->
  Json.subscript wallet "public_key" = Raise ex ->
  Distribute.public_keys (JArr (before ++ wallet :: after)) = Raise ex.
Proof.
  intros Hb Hw. unfold Distribute.public_keys. simpl.
  induction before as [|v before IH]; simpl.
  - now rewrite Hw.
  - pose proof (Hb v (or_introl eq_refl)) as Hv.
    destruct (Json.subscript v "public_key"); [|discriminate].
    rewrite IH; [reflexivity|]. intros u Hu. apply Hb. now right.
Qed.

(** ** Which files the distributor looks at *)

Section PatternFacts.

Import WalletFiles.

Lemma fnmatch_star_eq (p name : string) :
  fnmatch_from (String "*" p) name
  = fnmatch_from p name
    || match name with
       | EmptyString => false
       | String _ name' => fnmatch_from (String "*" p) name'
       end.
Proof. destruct name; reflexivity. Qed.

Lemma fnmatch_star (p name : string) :
  fnmatch_from (String "*" p) name = true <->
  exists a b, name = a +:+ b /\ fnmatch_from p b = true.
Proof.
  induction name as [|c name IH]; rewrite fnmatch_star_eq.
  - rewrite orb_false_r. split.
    + intros M. now exists EmptyString, EmptyString.
    + intros (a & b & E & M). destruct a; [|discriminate].
      simpl in E. now subst b.
  - rewrite orb_true_iff, IH. split.
    + intros [M|(a & b & E & M)].
      * now exists EmptyString, (String c name).
      * exists (String c a), b. simpl. now rewrite E.
    + intros ([|d a] & b & E & M); simpl in E.
      * left. now subst b.
      * right. inversion E; subst. now exists a, b.
Qed.

Lemma fnmatch_literal (lit p : string) :
  Py.all_chars is_literal lit = true ->
  forall name,
  fnmatch_from (lit +:+ p) name = true <->
  exists rest, name = lit +:+ rest /\ fnmatch_from p rest = true.
Proof.
  induction lit as [|c lit IH]; intros L name.
  - simpl. split; [intros M; now exists name|].
    now intros (rest & -> & M).
  - simpl in L. apply andb_true_iff in L as [Lc L].
    unfold is_literal in Lc. apply andb_true_iff in Lc as [L1 L2].
    apply negb_true_iff in L1, L2.
    cbn [String.append fnmatch_from]. rewrite L1, L2.
    destruct name as [|d name].
    + split; [discriminate|]. now intros (rest & E & _).
    + rewrite andb_true_iff, (IH L name). split.
      * intros [Ecd (rest & -> & M)]. apply Ascii.eqb_eq in Ecd. subst d.
        now exists rest.
      * intros (rest & E & M). inversion E; subst.
        split; [apply Ascii.eqb_refl | now exists rest].
Qed.

(** The names the pattern of the distributor stands for. *)
Lemma wallet_file_pattern (name : string) :
  fnmatch name WALLET_FILE_PATTERN = true <->
  exists x, name = "all_wallets_" +:+ x +:+ ".json".
Proof.
  unfold fnmatch, WALLET_FILE_PATTERN.
  change "all_wallets_*.json"
    with ("all_wallets_" +:+ String "*" (".json" +:+ EmptyString)).
  rewrite (fnmatch_literal "all_wallets_" _ eq_refl). split.
  - intros (rest & -> & M). apply fnmatch_star in M as (a & b & -> & M).
    apply (fnmatch_literal ".json" _ eq_refl) in M as (r & -> & M).
    destruct r; [|discriminate M]. exists a. now rewrite str_app_empty_r.
  - intros (x & ->). exists (x +:+ ".json"). split; [reflexivity|].
    apply fnmatch_star. exists x, ".json". split; [reflexivity|].
    reflexivity.
Qed.

(** X7: of the entries of a directory the distributor considers exactly
    those named [all_wallets_], any text, [.json]: the aggregate file of the
    generator, and neither its addresses file nor its cards nor any record
    file. *)
Theorem glob_selects_aggregate_files (listing : list string) :
  (forall name,
     In name (glob listing WALLET_FILE_PATTERN) <->
     In name listing /\
     exists x, name = "all_wallets_" +:+ x +:+ ".json") /\
  (forall rest, fnmatch ("wallet_" +:+ rest) WALLET_FILE_PATTERN = false) /\
  (forall rest,
     fnmatch ("public_addresses_" +:+ rest) WALLET_FILE_PATTERN = false).
Proof.
  split; [|split; reflexivity].
  intros name. unfold glob. rewrite filter_In, andb_true_iff.
  rewrite wallet_file_pattern. split; [tauto|].
  intros (Hin & x & ->). repeat split; eauto.
Qed.

End PatternFacts.

(** ** What the card shows *)

Section CardFacts.

Import CreateWallet CreateWalletSpec WalletCard.

Context `{Clock} `{WalletLib} `{Fpdf}.

Lemma replace_without_x (s : string) :
  Py.all_chars not_x s = true -> replace_from "0x" "" 0 s = s.
Proof.
  induction s as [|c s IH]; [reflexivity|].
  intros A. simpl in A. apply andb_true_iff in A as [_ A].
  cbn [replace_from]. rewrite (IH A).
  assert (P : String.prefix "0x" (String c s) = false).
  { change (String.prefix "0x" (String c s))
      with (if ascii_dec "0" c then String.prefix "x" s else false).
    destruct (ascii_dec "0" c); [|reflexivity].
    destruct s as [|d s]; [reflexivity|].
    change (String.prefix "x" (String d s))
      with (if ascii_dec "x" d then String.prefix "" s else false).
    cbn [Py.all_chars] in A. apply andb_true_iff in A as [Hd _].
    destruct (ascii_dec "x" d) as [<-|]; [discriminate Hd | reflexivity]. }
  now rewrite P.
Qed.

Lemma hex_digits_without_x (bs : list byte) :
  Py.all_chars not_x (hex_digits bs) = true.
Proof.
  induction bs as [|b bs IH]; [reflexivity|].
  cbn [hex_digits Py.all_chars]. rewrite IH.
  destruct b; reflexivity.
Qed.

Lemma replace_hex (bs : list byte) :
  replace (hex bs) "0x" "" = hex_digits bs.
Proof.
  unfold replace, hex. simpl.
  assert (P : forall s, String.prefix "" s = true)
    by (intros []; reflexivity).
  rewrite P.
  apply replace_without_x, hex_digits_without_x.
Qed.

(** X8: the QR code on the card of a generated wallet is made of the
    hexadecimal digits of its private key: the recorded private key is the
    prefix followed by exactly that text. *)
Theorem card_qr_is_bare_private_key
    (e : env) (wallet_number : option Z) (s : state) (a : account) :
  from_key (derived_key e (entropy_reads s)) = Ok a ->
  exists w f s',
    generate_wallet e wallet_number s = (s', Ok (w, f)) /\
    qr_data w = Ok (hex_digits (derived_key e (entropy_reads s))) /\
    Json.subscript w "private_key"
    = Ok (JStr ("0x" +:+ hex_digits (derived_key e (entropy_reads s)))).
Proof.
  intros K. pose proof (generate_wallet_run e wallet_number s) as R.
  rewrite K in R. destruct R as (w & f & s' & R & _ & _ & P & _).
  exists w, f, s'. split; [exact R|]. split; [|exact P].
  unfold qr_data. rewrite P. now rewrite replace_hex.
Qed.

End CardFacts.

(** ** From the generator to the distributor *)

Section Handover.

Import CreateWallet CreateWalletSpec WalletFiles.

Context `{Clock} `{WalletLib} `{Fpdf}.

(** X6: of the files a run of [generate_multiple_wallets] writes, the
    distributor can take the aggregate file and no other: its pattern
    selects no other file the run has written or changed, and the
    addresses file, which the generator announces as the one for the
    distribution, does not read as a wallet file: its keys are taken for
    records and the first one raises. *)
Theorem distributor_takes_only_the_aggregate
    (e : env) (count : Z) (s : state) :
  (forall k, k < Z.to_nat count ->
     is_ok (from_key (derived_key e (entropy_reads s + k))) = true) ->
  let timestamp := strftime (now e (clock_readings s)) "%Y%m%d_%H%M%S" in
  let master := "all_wallets_" +:+ timestamp +:+ ".json" in
  let addresses_file := "public_addresses_" +:+ timestamp +:+ ".json" in
  exists s' aggregate document,
    generate_multiple_wallets e count s = (s', Ok tt) /\
    files s' !! master = Some (JsonFile aggregate) /\
    fnmatch master WALLET_FILE_PATTERN = true /\
    is_ok (Distribute.public_keys aggregate) = true /\
    files s' !! addresses_file = Some (JsonFile document) /\
    Distribute.public_keys document = Raise (External "TypeError") /\
    forall n,
      files s' !! n <> files s !! n ->
      fnmatch n WALLET_FILE_PATTERN = true ->
      n = master.
Proof.
  intros Hkeys. cbv zeta.
  destruct (generate_multiple_wallets_run e count s Hkeys)
    as (s' & names & records & addresses & document & created
        & R & _ & _ & _ & _ & _ & Hm & Ha & _ & _ & Hpk).
  exists s', (JArr records).
  eexists. split; [exact R|]. split; [exact Hm|].
  split; [apply wallet_file_pattern; now eexists|].
  split; [now rewrite Hpk|]. split; [exact Ha|]. split; [reflexivity|].
  intros n Hch Hmatch. apply wallet_file_pattern in Hmatch as (x & ->).
  match goal with |- ?a = ?b => destruct (decide (a = b)) as [E|N] end;
    [exact E|].
  exfalso. apply Hch. clear Hch Hm Ha Hpk.
  unfold generate_multiple_wallets in R.
  rewrite bind_read_clock_wallet in R. unfold bind at 1 in R.
  destruct (wallet_loop e count (range 1 (count + 1)) _ _)
    as [s1 [l|ex]] eqn:W; [|discriminate R].
  pose proof (wallet_loop_only_records _ _ _ _ _ _ _ (range_from_one _) W)
    as O.
  unfold write_file in R.
  rewrite !bind_modify, bind_read_clock_wallet in R.
  unfold modify in R. inversion R as [Hs']. cbn [files].
  rewrite lookup_insert_ne by discriminate.
  rewrite lookup_insert_ne by (intros Q; apply N; exact (eq_sym Q)).
  rewrite lookup_insert_ne by discriminate.
  cbn [files] in O. apply O. intros t i. destruct i; discriminate.
Qed.

End Handover.

(** ** The further statements at work on concrete runs *)

Lemma load_private_key_ignores_whitespace_witness :
  Credential.load_private_key (Some " 0 x12
34 ")
  = Credential.load_private_key (Some "0x1234").
Proof.
  apply (load_private_key_ignores_whitespace " 0 x12
34 " "0x1234").
  reflexivity.
Defined.

Lemma load_private_key_stable_witness :
  Credential.load_private_key
    (Some "0x4c0883a69102937d6231471b5dbb6204fe5129617082792ae468d01a3f362318")
  = Ok "0x4c0883a69102937d6231471b5dbb6204fe5129617082792ae468d01a3f362318".
Proof.
  apply (load_private_key_stable
    " 4c0883a69102937d6231471b5dbb6204fe5129617082792ae468d01a3f362318
").
  vm_compute. reflexivity.
Defined.

Lemma public_keys_first_error_witness :
  Distribute.public_keys Demo.wallets_with_gap
  = Raise (External "KeyError: public_key").
Proof.
  apply (public_keys_first_error
           [JObj [("public_key", Demo.good_address)]]
           [JObj [("public_key", Demo.bad_address)]]
           (JObj [("wallet_number", JInt 2)])).
  - intros v [<-|[]]. reflexivity.
  - reflexivity.
Defined.

Lemma card_qr_is_bare_private_key_witness :
  exists w f s',
    Demo.one_wallet = (s', Ok (w, f)) /\
    WalletCard.qr_data w = Ok "303130323033".
Proof.
  edestruct (@card_qr_is_bare_private_key Demo.clock Demo.wallet_lib
               Demo.fpdf Demo.wallet_env (Some 1%Z) Demo.empty_disk)
    as (w & f & s' & E & Hq & _); [reflexivity|].
  exists w, f, s'. split; [exact E | exact Hq].
Defined.


Lemma nonces_never_decrease_witness :
  exists ms bs,
    Distribute.log_file (fst Demo.good_loop)
    = Some ("pol_distribution_log_0.txt", [] ++ ms) /\
    Distribute.built (fst Demo.good_loop) = [] ++ bs.
Proof.
  destruct (@nonces_never_decrease Demo.web3 Demo.streams false 1%Z
              "0xSender" "key" 1000%Z 30%Z 1630%Z Demo.good_recipients
              Demo.open_state "pol_distribution_log_0.txt" [] eq_refl)
    as (ms & bs & Hl & Hb & _).
  exists ms, bs. split; [exact Hl | exact Hb].
Defined.

Lemma loop_call_counts_witness :
  exists cs,
    Distribute.calls (fst Demo.good_loop) = [] ++ cs /\
    RunNotions.count RunNotions.is_sign cs = 2.
Proof.
  destruct (@loop_call_counts Demo.web3 Demo.streams false 1%Z "0xSender"
              "key" 1000%Z 30%Z 1630%Z Demo.good_recipients Demo.open_state
              "pol_distribution_log_0.txt" [] eq_refl)
    as (ms & cs & _ & Hc & _ & _ & Hs & _).
  exists cs. split; [exact Hc|]. apply Nat2Z.inj. exact (Hs eq_refl).
Defined.

Lemma faultless_run_sends_to_all_witness :
  Distribute.nonce (fst Demo.good_loop) = 9%Z.
Proof.
  destruct (@faultless_run_sends_to_all Demo.web3 Demo.streams false 1%Z
              "0xSender" "key" 1000%Z 30%Z 1630%Z Demo.good_recipients
              Demo.open_state "pol_distribution_log_0.txt" [])
    as (ms & bs & _ & _ & _ & Hn & _).
  - reflexivity.
  - intros r [<-|[<-|[]]]; reflexivity.
  - intros t. reflexivity.
  - intros c raw. reflexivity.
  - intros c h. reflexivity.
  - intros rc. reflexivity.
  - reflexivity.
  - exact Hn.
Defined.



Lemma failed_run_sent_nothing_witness :
  Distribute.built (fst Demo.poor_run) = [].
Proof.
  apply (@failed_run_sent_nothing Demo.clock Demo.web3 Demo.streams
           Demo.distribute_env true 1%Z
           (@Distribute.initial_state Demo.web3 10%Z)
           (fst Demo.poor_run)
           (InsufficientBalance 2000000000001260000 10)).
  - intros name wallets_data recipients Hload Hkeys.
    simpl in Hload. injection Hload as <-.
    vm_compute in Hkeys. injection Hkeys as <-. reflexivity.
  - vm_compute. reflexivity.
Defined.

Lemma unusable_inputs_stop_the_run_witness :
  @Distribute.distribute_pol Demo.clock Demo.web3 Demo.streams
    Demo.bare_env false 1%Z (@Distribute.initial_state Demo.web3 10%Z)
  = (@Distribute.initial_state Demo.web3 10%Z, Raise MissingCredentialFile).
Proof.
  exact (@unusable_inputs_stop_the_run Demo.clock Demo.web3 Demo.streams
           Demo.bare_env false 1%Z
           (@Distribute.initial_state Demo.web3 10%Z)).
Defined.

Lemma rejected_key_writes_nothing_witness :
  exists s',
    @CreateWallet.generate_wallet Demo.clock Demo.wallet_lib Demo.fpdf
      Demo.barren_env None Demo.empty_disk
    = (s', Raise (External "invalid key")) /\
    CreateWallet.files s' = CreateWallet.files Demo.empty_disk.
Proof.
  destruct (@rejected_key_writes_nothing Demo.clock Demo.wallet_lib
              Demo.fpdf Demo.barren_env None Demo.empty_disk
              (External "invalid key") eq_refl)
    as (s' & E & Hf & _).
  exists s'. split; [exact E | exact Hf].
Defined.

Lemma single_wallets_same_second_overwrite_witness :
  exists w1 w2 f s1 s2,
    @CreateWallet.generate_wallet Demo.clock Demo.wallet_lib Demo.fpdf
      Demo.frozen_env None Demo.empty_disk = (s1, Ok (w1, f)) /\
    @CreateWallet.generate_wallet Demo.clock Demo.wallet_lib Demo.fpdf
      Demo.frozen_env None s1 = (s2, Ok (w2, f)) /\
    CreateWallet.files s2
    = <[f := CreateWallet.JsonFile w2]> (CreateWallet.files Demo.empty_disk).
Proof.
  edestruct (@single_wallets_same_second_overwrite Demo.clock
               Demo.wallet_lib Demo.fpdf Demo.frozen_env Demo.empty_disk)
    as (w1 & w2 & f & s1 & s2 & E1 & E2 & _ & Hf);
    [reflexivity | reflexivity | reflexivity |].
  exists w1, w2, f, s1, s2. split; [exact E1|]. split; [exact E2 | exact Hf].
Defined.

Lemma main_without_generation_witness :
  exists s',
    @CreateWallet.main Demo.clock Demo.wallet_lib Demo.fpdf Demo.wallet_env
      false 0%Z Demo.later_disk = (s', Ok tt) /\
    CreateWallet.entropy_reads s' = 4 /\
    CreateWallet.files s' = CreateWallet.files Demo.later_disk.
Proof.
  destruct (@main_without_generation Demo.clock Demo.wallet_lib Demo.fpdf
              Demo.wallet_env false 0%Z Demo.later_disk)
    as (s' & document & E & Hr & Hf).
  - right. lia.
  - exists s'. split; [exact E|]. split; [exact Hr | exact Hf].
Defined.

Lemma main_single_wallet_witness :
  snd (@CreateWallet.main Demo.clock Demo.wallet_lib Demo.fpdf
         Demo.wallet_env false 1%Z Demo.empty_disk) = Ok tt.
Proof.
  edestruct (@main_single_wallet Demo.clock Demo.wallet_lib Demo.fpdf
               Demo.wallet_env Demo.empty_disk)
    as (w & document & _ & E); [reflexivity|].
  exact E.
Defined.

Lemma no_wallets_requested_witness :
  exists s' document,
    @CreateWallet.generate_multiple_wallets Demo.clock Demo.wallet_lib
      Demo.fpdf Demo.wallet_env (-3)%Z Demo.empty_disk = (s', Ok tt) /\
    CreateWallet.files s' !! "all_wallets_0.json"
    = Some (CreateWallet.JsonFile (JArr [])) /\
    CreateWallet.files s' !! "wallet_cards_0.pdf"
    = Some (CreateWallet.PdfFile document).
Proof.
  destruct (@no_wallets_requested Demo.clock Demo.wallet_lib Demo.fpdf
              Demo.wallet_env (-3)%Z Demo.empty_disk)
    as (s' & document & created & E & _ & Hm & _ & Hc & _).
  - lia.
  - exists s', document. split; [exact E|]. split; [exact Hm | exact Hc].
Defined.

Lemma aggregate_numbers_wallets_witness :
  exists s' records,
    Demo.two_wallets = (s', Ok tt) /\
    CreateWallet.files s' !! "all_wallets_0.json"
    = Some (CreateWallet.JsonFile (JArr records)) /\
    forall w,
      records !! 1 = Some w ->
      Json.subscript w "wallet_number" = Ok (JInt 2).
Proof.
  destruct (@aggregate_numbers_wallets Demo.clock Demo.wallet_lib Demo.fpdf
              Demo.wallet_env 2%Z Demo.empty_disk)
    as (s' & records & E & Hm & _ & Hn).
  - intros k _. reflexivity.
  - exists s', records. split; [exact E|]. split; [exact Hm|].
    intros w Hw. exact (Hn 1 w Hw).
Defined.

Lemma failed_generation_leaves_no_aggregate_witness :
  exists s',
    @CreateWallet.generate_multiple_wallets Demo.clock Demo.wallet_lib
      Demo.fpdf Demo.faulty_env 3%Z Demo.empty_disk
    = (s', Raise (External "invalid key")) /\
    CreateWallet.files s' !! "all_wallets_0.json" = None /\
    CreateWallet.files s' !! "wallet_4_2.json" = None.
Proof.
  destruct (@failed_generation_leaves_no_aggregate Demo.clock
              Demo.wallet_lib Demo.fpdf Demo.faulty_env 3%Z Demo.empty_disk
              1 (External "invalid key"))
    as (s' & E & Hf).
  - vm_compute. lia.
  - intros k Hk. destruct k as [|k]; [reflexivity | lia].
  - reflexivity.
  - exists s'. split; [exact E|]. split.
    + rewrite Hf; [reflexivity|].
      intros k Hk. unfold CreateWalletSpec.record_filename. discriminate.
    + rewrite Hf; [reflexivity|].
      intros k Hk. destruct k as [|k]; [vm_compute; discriminate | lia].
Defined.

Lemma distributor_takes_only_the_aggregate_witness :
  exists s' document,
    Demo.two_wallets = (s', Ok tt) /\
    CreateWallet.files s' !! "public_addresses_0.json"
    = Some (CreateWallet.JsonFile document) /\
    Distribute.public_keys document = Raise (External "TypeError").
Proof.
  destruct (@distributor_takes_only_the_aggregate Demo.clock
              Demo.wallet_lib Demo.fpdf Demo.wallet_env 2%Z
              Demo.empty_disk)
    as (s' & aggregate & document & E & _ & _ & _ & Ha & Hd & _).
  - intros k _. reflexivity.
  - exists s', document. split; [exact E|]. split; [exact Ha | exact Hd].
Defined.
